(** * wordle.py: the feedback rule, the constraint array and the entropy ranker

    A shallow embedding of [wordle.py].  Python strings are lists of
    characters, the 26x7 information array is a list of rows of dynamically
    typed cells, every subscript goes through Python's indexing rule
    (negative subscripts count from the end, anything else out of range
    raises [IndexError]) and every function returns in an error monad. *)

From Stdlib Require Import ZArith Ascii String Reals Lra Lia Permutation Sorted.
From stdpp Require Import base list strings sorting.

Local Open Scope Z_scope.

(** ** Exceptions and the error monad *)

Inductive exn : Type :=
| IndexError
| TypeError
| ZeroDivisionError
| ValueError.

Inductive result (A : Type) : Type :=
| Ok (a : A)
| Raise (e : exn).
Arguments Ok {A} a.
Arguments Raise {A} e.

Definition bind {A B : Type} (m : result A) (k : A -> result B) : result B :=
  match m with
  | Ok a => k a
  | Raise e => Raise e
  end.

Notation "x <~ m ;; k" := (bind m (fun x => k))
  (at level 100, m at next level, right associativity,
   format "'[v' x  <~  m  ;;  '/' k ']'").

(** ** Python values and subscripts *)

(** A string is the list of its characters; a one-character string (an
    element of a string) is a single [ascii]. *)
Abbreviation str := (list ascii) (only parsing).

Definition s (x : string) : str := list_ascii_of_string x.

(** What a cell of the information array can hold: the initial [0], a tile
    colour taken from the check string, a count, the exactness flag. *)
Inductive pyval : Type :=
| PInt (z : Z)
| PBool (b : bool)
| PStr (c : ascii).

(** [v == 'c'] for a cell and a one-character string. *)
Definition eq_str (v : pyval) (c : ascii) : bool :=
  match v with
  | PStr d => Ascii.eqb d c
  | _ => false
  end.

(** Truth value of a cell ([if v:]). *)
Definition truthy (v : pyval) : bool :=
  match v with
  | PInt z => negb (z =? 0)
  | PBool b => b
  | PStr _ => true
  end.

(** The number behind a cell; ordering a string against an int raises. *)
Definition as_number (v : pyval) : result Z :=
  match v with
  | PInt z => Ok z
  | PBool b => Ok (if b then 1 else 0)
  | PStr _ => Raise TypeError
  end.

(** [v != n] for a cell and an int: a string is never equal to an int. *)
Definition ne_int (v : pyval) (n : Z) : bool :=
  match v with
  | PInt z => negb (z =? n)
  | PBool b => negb ((if b then 1 else 0) =? n)
  | PStr _ => true
  end.

(** [v > n] and [v >= n] for a cell and an int. *)
Definition gt_int (v : pyval) (n : Z) : result bool :=
  z <~ as_number v ;; Ok (n <? z).

Definition ge_int (v : pyval) (n : Z) : result bool :=
  z <~ as_number v ;; Ok (n <=? z).

(** Python's subscript rule on a sequence of length [n]. *)
Definition py_index (n : nat) (i : Z) : result nat :=
  if (0 <=? i) && (i <? Z.of_nat n) then Ok (Z.to_nat i)
  else if (- Z.of_nat n <=? i) && (i <? 0) then Ok (Z.to_nat (Z.of_nat n + i))
  else Raise IndexError.

Definition getitem {A : Type} (l : list A) (i : Z) : result A :=
  k <~ py_index (length l) i ;;
  match l !! k with
  | Some x => Ok x
  | None => Raise IndexError
  end.

Definition setitem {A : Type} (l : list A) (i : Z) (v : A) : result (list A) :=
  k <~ py_index (length l) i ;;
  Ok (<[k:=v]> l).

(** [a[i][j]] and [a[i][j] = v] on a list of rows. *)
Definition getitem2 {A : Type} (a : list (list A)) (i j : Z) : result A :=
  row <~ getitem a i ;; getitem row j.

Definition setitem2 {A : Type} (a : list (list A)) (i j : Z) (v : A)
  : result (list (list A)) :=
  row <~ getitem a i ;;
  row' <~ setitem row j v ;;
  setitem a i row'.

(** [l[i] += d] on a list of ints. *)
Definition iadd (l : list Z) (i : Z) (d : Z) : result (list Z) :=
  x <~ getitem l i ;; setitem l i (x + d).

(** [range(n)]. *)
Definition range (n : nat) : list Z := map Z.of_nat (seq 0 n).

(** The number of elements of a list that pass a test. *)
Fixpoint tally {A : Type} (P : A -> bool) (l : list A) : Z :=
  match l with
  | [] => 0
  | x :: l' => (if P x then 1 else 0) + tally P l'
  end.

(** [s.count(c)] and [c in s] for a one-character [c]. *)
Definition count (c : ascii) (w : str) : Z :=
  tally (fun x => bool_decide (x = c)) w.

Definition contains (w : str) (c : ascii) : bool := bool_decide (c ∈ w).

(** ** Loops *)

(** [for x in xs: s = body(x, s)], stopping at the first exception. *)
Fixpoint for_each {A S : Type} (xs : list A) (body : A -> S -> result S)
  (st : S) : result S :=
  match xs with
  | [] => Ok st
  | x :: xs' => st' <~ body x st ;; for_each xs' body st'
  end.

(** [for x in xs: if not test(x): return False] followed by [return True]. *)
Fixpoint for_all {A : Type} (xs : list A) (test : A -> result bool)
  : result bool :=
  match xs with
  | [] => Ok true
  | x :: xs' => b <~ test x ;; if b then for_all xs' test else Ok false
  end.

(** [a and b], evaluating [b] only when [a] is true. *)
Definition py_and (a b : result bool) : result bool :=
  x <~ a ;; if x then b else Ok false.

(** What one pass through the body of a [while True:] does. *)
Inductive flow (S R : Type) : Type :=
| Continue (st : S)
| Return (r : R).
Arguments Continue {S R} st.
Arguments Return {S R} r.

(** [while True: body], cut after [fuel] passes; [None] is "still looping". *)
Fixpoint while_true {S R : Type} (fuel : nat) (body : S -> result (flow S R))
  (st : S) : option (result R) :=
  match fuel with
  | O => None
  | S fuel' =>
      match body st with
      | Raise e => Some (Raise e)
      | Ok (Return r) => Some (Ok r)
      | Ok (Continue st') => while_true fuel' body st'
      end
  end.

(** ** The constraint array *)

Abbreviation array := (list (list pyval)) (only parsing).

(** [[[0 for x in range(7)] for y in range(26)]] *)
Definition new_array : array := replicate 26 (replicate 7 (PInt 0)).

Definition index_of_letter (letter : ascii) : Z :=
  Z.of_nat (nat_of_ascii letter) - Z.of_nat (nat_of_ascii "a").

Definition is_incorrect_position (word : str) (arr : array) : result bool :=
  for_all (range (length word)) (fun j =>
    c <~ getitem word j ;;
    let i := index_of_letter c in
    x <~ getitem2 arr i j ;;
    if eq_str x "b" then Ok false
    else
      y <~ getitem2 arr i j ;;
      if eq_str y "y" then Ok false else Ok true).

Definition is_correct_position (word : str) (arr : array) : result bool :=
  for_all (range (length word)) (fun j =>
    c <~ getitem word j ;;
    let i := index_of_letter c in
    for_all (range (length arr)) (fun k =>
      x <~ getitem2 arr k j ;;
      if eq_str x "g" && negb (i =? k) then Ok false else Ok true)).

(** [chr(j + ord('a')) not in word]; a code point above 255 is no character
    of a [str] of this model. *)
Definition letter_missing (j : Z) (word : str) : bool :=
  let code := j + Z.of_nat (nat_of_ascii "a") in
  if code <? 256 then negb (contains word (ascii_of_nat (Z.to_nat code)))
  else true.

Definition is_correct_letter_frequencies (word : str) (arr : array)
  : result bool :=
  b <~ for_all (range (length word)) (fun j =>
         c <~ getitem word j ;;
         let cnt := count c word in
         let i := index_of_letter c in
         letter_frequency <~ getitem2 arr i (-2) ;;
         is_exactly_count <~ getitem2 arr i (-1) ;;
         if truthy is_exactly_count then
           if ne_int letter_frequency cnt then Ok false else Ok true
         else
           gt <~ gt_int letter_frequency cnt ;;
           if gt then Ok false else Ok true) ;;
  if b then
    for_all (range (length arr)) (fun j =>
      x <~ getitem2 arr j (-2) ;;
      ge <~ ge_int x 1 ;;
      if ge then
        if letter_missing j word then Ok false else Ok true
      else Ok true)
  else Ok false.

Definition valid_guess (word : str) (arr : array) : result bool :=
  py_and (is_incorrect_position word arr)
    (py_and (is_correct_position word arr)
       (is_correct_letter_frequencies word arr)).

Definition compute_letter_freq (letter : ascii) (guess check : str)
  : result (Z * bool) :=
  for_each (range (length guess)) (fun i '(cnt, is_exact) =>
    c <~ getitem check i ;;
    gy <~ (if Ascii.eqb c "g" then Ok true
           else c' <~ getitem check i ;; Ok (Ascii.eqb c' "y")) ;;
    hit <~ (if gy then g <~ getitem guess i ;; Ok (Ascii.eqb g letter)
            else Ok false) ;;
    let cnt' := if hit then cnt + 1 else cnt in
    c2 <~ getitem check i ;;
    blk <~ (if Ascii.eqb c2 "b" then g <~ getitem guess i ;; Ok (Ascii.eqb g letter)
            else Ok false) ;;
    Ok (cnt', if blk then true else is_exact)) (0, false).

Definition generate_array (guess check : str) (arr : array) : result array :=
  for_each (range (length guess)) (fun j arr =>
    g <~ getitem guess j ;;
    let i := index_of_letter g in
    g' <~ getitem guess j ;;
    letter_count <~ compute_letter_freq g' guess check ;;
    c <~ getitem check j ;;
    arr1 <~ setitem2 arr i j (PStr c) ;;
    arr2 <~ setitem2 arr1 i (-2) (PInt (fst letter_count)) ;;
    setitem2 arr2 i (-1) (PBool (snd letter_count))) arr.

(** ** The feedback rule *)

Definition compute_wordle_information (guess answer : str) : result str :=
  let zeros := replicate 26 0 in
  counts <~
    for_each (range (length answer)) (fun j '(fa, ga) =>
      a <~ getitem answer j ;;
      let i := index_of_letter a in
      fa' <~ iadd fa i 1 ;;
      g <~ getitem guess j ;;
      a' <~ getitem answer j ;;
      if Ascii.eqb g a' then ga' <~ iadd ga i 1 ;; Ok (fa', ga')
      else Ok (fa', ga)) (zeros, zeros) ;;
  let '(frequency_array, green_frequency_array) := counts in
  final <~
    for_each (range (length guess)) (fun j '(sequence, ga) =>
      g <~ getitem guess j ;;
      let cnt := count g (take (Z.to_nat (j + 1)) guess) in
      let i := index_of_letter g in
      a <~ getitem answer j ;;
      if Ascii.eqb g a then
        ga' <~ iadd ga i (-1) ;;
        Ok (sequence ++ ["g"%char], ga')
      else
        yellow <~ (if contains answer g then
                     f <~ getitem frequency_array i ;;
                     if cnt <=? f then
                       gr <~ getitem ga i ;;
                       Ok (gr <=? f - cnt)
                     else Ok false
                   else Ok false) ;;
        if yellow then Ok (sequence ++ ["y"%char], ga)
        else Ok (sequence ++ ["b"%char], ga)) ([], green_frequency_array) ;;
  Ok (fst final).

(** ** Floating-point numbers

    The entropy is computed on Python floats with [math.log] from the C
    library.  The embedding keeps the arithmetic abstract: whatever the
    rounding, the theorems below hold for it.  [1/x] raises on a zero and
    [math.log] on a non-positive argument, so both are partial. *)

Class PyFloat : Type := {
  pyfloat : Type;
  float_of_int : Z -> pyfloat;
  int_truediv : Z -> Z -> pyfloat;            (* [a / b] on ints, [b] not 0 *)
  float_inv : pyfloat -> result pyfloat;      (* [1 / x] *)
  math_log2 : pyfloat -> result pyfloat;      (* [math.log(x, 2)] *)
  float_mul : pyfloat -> pyfloat -> pyfloat;
  float_add : pyfloat -> pyfloat -> pyfloat;
  float_lt : pyfloat -> pyfloat -> bool;
  float_eq : pyfloat -> pyfloat -> bool
}.

Section Entropy.
Context {FP : PyFloat}.

(** A Python number: the int [0] the entropy starts from, or a float. *)
Inductive pynum : Type :=
| NInt (z : Z)
| NFloat (x : pyfloat).

Definition to_float (n : pynum) : pyfloat :=
  match n with
  | NInt z => float_of_int z
  | NFloat x => x
  end.

(** [a + x], [a < b] and [a == b]; an int operand is converted first. *)
Definition num_add_float (a : pynum) (x : pyfloat) : pynum :=
  NFloat (float_add (to_float a) x).

Definition num_lt (a b : pynum) : bool :=
  match a, b with
  | NInt x, NInt y => x <? y
  | _, _ => float_lt (to_float a) (to_float b)
  end.

Definition num_eq (a b : pynum) : bool :=
  match a, b with
  | NInt x, NInt y => x =? y
  | _, _ => float_eq (to_float a) (to_float b)
  end.

(** A dict from colour sequences, in insertion order. *)
Abbreviation dict V := (list (list ascii * V)) (only parsing).

(** [d[key] += 1] if [key in d], else [d[key] = 1]. *)
Fixpoint dict_incr (key : str) (d : dict Z) : dict Z :=
  match d with
  | [] => [(key, 1)]
  | (k, v) :: d' =>
      if bool_decide (k = key) then (k, v + 1) :: d'
      else (k, v) :: dict_incr key d'
  end.

Definition compute_probability_distribution (guess : str) (word_list : list str)
  : result (dict pyfloat) :=
  probability_dictionary <~
    for_each word_list (fun word d =>
      color_sequence <~ compute_wordle_information guess word ;;
      Ok (dict_incr color_sequence d)) [] ;;
  for_each probability_dictionary (fun '(key, v) d =>
    let n := Z.of_nat (length word_list) in
    if n =? 0 then Raise ZeroDivisionError
    else Ok (d ++ [(key, int_truediv v n)])) [].

Definition compute_entropy (guess : str) (word_list : list str) : result pynum :=
  probability_dictionary <~ compute_probability_distribution guess word_list ;;
  for_each probability_dictionary (fun '(key, val) entropy =>
    r <~ float_inv val ;;
    l <~ math_log2 r ;;
    Ok (num_add_float entropy (float_mul val l))) (NInt 0).

(** [sorted(l, key=lambda x: x[1], reverse=True)].  Python's sort is stable
    and compares keys with [<] only; with [reverse=True] it reverses the
    list, sorts it and reverses the result.  A stable insertion sort stands
    for the sorting pass. *)
Fixpoint insert_by_key {A : Type} (key : A -> pynum) (x : A) (l : list A)
  : list A :=
  match l with
  | [] => [x]
  | y :: l' =>
      if num_lt (key y) (key x) then y :: insert_by_key key x l'
      else x :: y :: l'
  end.

Fixpoint stable_sort {A : Type} (key : A -> pynum) (l : list A) : list A :=
  match l with
  | [] => []
  | x :: l' => insert_by_key key x (stable_sort key l')
  end.

Definition sorted_reverse {A : Type} (key : A -> pynum) (l : list A) : list A :=
  reverse (stable_sort key (reverse l)).

Definition generate_entropy_list (word_list possible_guesses : list str)
  : result (list (str * pynum)) :=
  entropy_list <~
    for_each word_list (fun word el =>
      entropy <~ compute_entropy word possible_guesses ;;
      Ok (el ++ [(word, entropy)])) [] ;;
  Ok (sorted_reverse snd entropy_list).

(** ** Self-play *)

(** The words kept by [valid_guess], in the order of [lines]. *)
Definition filter_lines (lines : list str) (guess_array : array)
  : result (list str) :=
  for_each (range (length lines)) (fun j possible_guesses =>
    w <~ getitem lines j ;;
    v <~ valid_guess w guess_array ;;
    if v then
      w' <~ getitem lines j ;; Ok (possible_guesses ++ [w'])
    else Ok possible_guesses) [].

(** The suggestion: the top entry, replaced by a possible answer that
    reaches the top entropy. *)
Definition pick_suggestion (entropy_list : list (str * pynum))
  (possible_guesses : list str) : result str :=
  top <~ getitem entropy_list 0 ;;
  for_each possible_guesses (fun guess guess_suggestion =>
    for_each (range (length entropy_list)) (fun i guess_suggestion =>
      e <~ getitem entropy_list i ;;
      if bool_decide (fst e = guess) then
        e0 <~ getitem entropy_list 0 ;;
        ei <~ getitem entropy_list i ;;
        if num_eq (snd e0) (snd ei) then Ok guess else Ok guess_suggestion
      else Ok guess_suggestion) guess_suggestion) (fst top).

Definition all_green : str := s "ggggg".

(** One pass through the body of the [while True:] of
    [computer_play_wordle]; [lines] is the content of the word file. *)
Definition play_turn (lines : list str) (answer : str)
  (st : array * str * Z) : result (flow (array * str * Z) Z) :=
  let '(guess_array, guess_suggestion, loop_count) := st in
  let loop_count := loop_count + 1 in
  let guess := guess_suggestion in
  check <~ compute_wordle_information guess answer ;;
  if bool_decide (check = all_green) then Ok (Return loop_count)
  else
    guess_array <~ generate_array guess check guess_array ;;
    possible_guesses <~ filter_lines lines guess_array ;;
    entropy_list <~ generate_entropy_list lines possible_guesses ;;
    guess_suggestion <~ pick_suggestion entropy_list possible_guesses ;;
    if 6 <=? loop_count then Ok (Return (loop_count + 1))
    else Ok (Continue (guess_array, guess_suggestion, loop_count)).

Definition computer_play_wordle (fuel : nat) (lines : list str) (answer : str)
  : option (result Z) :=
  while_true fuel (play_turn lines answer) (new_array, s "tares", 0).

(** ** Batch evaluation *)

(** The loop of [get_bot_efficiency] over the words of the file. *)
Fixpoint bot_loop (fuel : nat) (lines eles : list str)
  (win_count : Z) (fail_array : list str) : option (result (Z * list str)) :=
  match eles with
  | [] => Some (Ok (win_count, fail_array))
  | ele :: rest =>
      match computer_play_wordle fuel lines ele with
      | None => None
      | Some (Raise e) => Some (Raise e)
      | Some (Ok turn_count) =>
          bot_loop fuel lines rest (win_count + turn_count)
            (if 7 <=? turn_count then fail_array ++ [ele] else fail_array)
      end
  end.

(** [get_bot_efficiency], returning the two values it prints at the end: the
    failure words and the average number of turns. *)
Definition get_bot_efficiency (fuel : nat) (lines : list str)
  : option (result (list str * pyfloat)) :=
  match bot_loop fuel lines lines 0 [] with
  | None => None
  | Some (Raise e) => Some (Raise e)
  | Some (Ok (win_count, fail_array)) =>
      let n := Z.of_nat (length lines) in
      if n =? 0 then Some (Raise ZeroDivisionError)
      else Some (Ok (fail_array, int_truediv win_count n))
  end.

End Entropy.

(** Exact real arithmetic as an instance of the float interface. *)
Definition real_arith : PyFloat := {|
  pyfloat := R;
  float_of_int := IZR;
  int_truediv := fun a b => (IZR a / IZR b)%R;
  float_inv := fun x =>
    if Req_EM_T x 0 then Raise ZeroDivisionError else Ok (1 / x)%R;
  math_log2 := fun x =>
    if Rle_dec x 0 then Raise ValueError else Ok (ln x / ln 2)%R;
  float_mul := Rmult;
  float_add := Rplus;
  float_lt := fun a b => if Rlt_dec a b then true else false;
  float_eq := fun a b => if Req_EM_T a b then true else false
|}.

(** ** Well-formed inputs *)

Definition lower (c : ascii) : Prop :=
  (97 <= nat_of_ascii c <= 122)%nat.

(** A word of the game: five lowercase letters. *)
Definition word5 (w : str) : Prop := length w = 5%nat /\ Forall lower w.

(** Decidable form of [word5], for concrete words. *)
Definition lowerb (c : ascii) : bool :=
  (97 <=? nat_of_ascii c)%nat && (nat_of_ascii c <=? 122)%nat.

Definition word5b (w : str) : bool :=
  (length w =? 5)%nat && forallb lowerb w.

(** The shape of the information array: 26 rows of 7 cells. *)
Definition shape (arr : array) : Prop :=
  length arr = 26%nat /\ Forall (fun row => length row = 7%nat) arr.

(** The cell in row [i], column [j]. *)
Definition cell (arr : array) (i j : nat) : option pyval :=
  arr !! i ≫= (fun row => row !! j).

(** Row number and letter of a row. *)
Definition row_of (c : ascii) : nat := (nat_of_ascii c - 97)%nat.
Definition letter_of (i : nat) : ascii := ascii_of_nat (97 + i).
Arguments row_of : simpl never.
Arguments letter_of : simpl never.

(** An outcome that is not an [IndexError]. *)
Definition in_bounds {A : Type} (m : result A) : Prop := m <> Raise IndexError.

(** ** What one call of [generate_array] stores

    For a letter of the guess: the number of its tiles marked green or
    yellow in the check string, and whether one of its tiles is black. *)

Definition marked (letter : ascii) (guess check : str) : Z :=
  tally (fun p => (Ascii.eqb (snd p) "g" || Ascii.eqb (snd p) "y")
                  && Ascii.eqb (fst p) letter) (zip guess check).

Definition blacked (letter : ascii) (guess check : str) : bool :=
  existsb (fun p => Ascii.eqb (snd p) "b" && Ascii.eqb (fst p) letter)
    (zip guess check).

(** The array [arr'] holds what [generate_array] has stored in [arr] after
    the first [k] positions of the guess: the tile colours in the first five
    columns, the count in column 5 ([-2]) and the flag in column 6 ([-1]). *)
Definition stored (guess check : str) (k : nat) (arr arr' : array) : Prop :=
  (forall i j, (i < 26)%nat -> (j < 5)%nat ->
     cell arr' i j =
       if bool_decide ((j < k)%nat /\ guess !! j = Some (letter_of i))
       then PStr <$> check !! j else cell arr i j) /\
  (forall i, (i < 26)%nat ->
     cell arr' i 5 =
       if bool_decide (letter_of i ∈ take k guess)
       then Some (PInt (marked (letter_of i) guess check)) else cell arr i 5) /\
  (forall i, (i < 26)%nat ->
     cell arr' i 6 =
       if bool_decide (letter_of i ∈ take k guess)
       then Some (PBool (blacked (letter_of i) guess check)) else cell arr i 6).

(** ** The feedback rule as the specification words it

    Over the positions of a guess and an answer of the same length: the
    tiles of a letter that are green, the tiles that are not, and the colour
    of position [j] holding [g] in the guess and [a] in the answer. *)

Definition greens (letter : ascii) (ps : list (ascii * ascii)) : Z :=
  tally (fun p => Ascii.eqb (fst p) letter && Ascii.eqb (fst p) (snd p)) ps.

Definition nongreens (letter : ascii) (ps : list (ascii * ascii)) : Z :=
  tally (fun p => Ascii.eqb (fst p) letter && negb (Ascii.eqb (fst p) (snd p))) ps.

(** The letter's total green count. *)
Definition green_total (guess answer : str) (letter : ascii) : Z :=
  greens letter (zip guess answer).

(** The non-green occurrences of the letter among guess positions [0..j]. *)
Definition nongreen_upto (guess answer : str) (letter : ascii) (j : nat) : Z :=
  nongreens letter (take (S j) (zip guess answer)).

Definition spec_color (guess answer : str) (j : nat) (g a : ascii) : ascii :=
  if Ascii.eqb g a then "g"%char
  else if nongreen_upto guess answer g j
          <=? count g answer - green_total guess answer g
       then "y"%char
       else "b"%char.

(** A 26-entry list of ints that holds [f] of each letter. *)
Definition tallied (l : list Z) (f : ascii -> Z) : Prop :=
  length l = 26%nat /\
  forall i, (i < 26)%nat -> l !! i = Some (f (letter_of i)).

(** ** What the three checks of [valid_guess] read off the cells *)

(** The count [lf] and flag [ex] of a letter allow [n] copies of it. *)
Definition freq_ok (lf ex : pyval) (n : Z) : Prop :=
  if truthy ex then ne_int lf n = false
  else exists z, as_number lf = Ok z /\ z <= n.

Definition no_excluded_letter (word : str) (arr : array) : Prop :=
  forall j c, word !! j = Some c ->
    exists v, cell arr (row_of c) j = Some v /\
              eq_str v "b" = false /\ eq_str v "y" = false.

Definition greens_respected (word : str) (arr : array) : Prop :=
  forall j c k, word !! j = Some c -> (k < 26)%nat ->
    exists v, cell arr k j = Some v /\ (eq_str v "g" = true -> k = row_of c).

Definition frequencies_respected (word : str) (arr : array) : Prop :=
  (forall j c, word !! j = Some c ->
     exists lf ex, cell arr (row_of c) 5 = Some lf /\
                   cell arr (row_of c) 6 = Some ex /\
                   freq_ok lf ex (count c word)) /\
  (forall k, (k < 26)%nat ->
     exists x z, cell arr k 5 = Some x /\ as_number x = Ok z /\
                 (1 <= z -> letter_of k ∈ word)).

(** ** Feedback against a fixed answer *)

(** The array after the guesses, each one checked against [answer]:
    [array = generate_array(guess, compute_wordle_information(guess, answer),
    array)] for each guess in order. *)
Fixpoint feed (answer : str) (guesses : list str) (arr : array) : result array :=
  match guesses with
  | [] => Ok arr
  | guess :: rest =>
      check <~ compute_wordle_information guess answer ;;
      arr' <~ generate_array guess check arr ;;
      feed answer rest arr'
  end.

(** Every cell of the array tells the truth about [answer]: a green cell
    names the letter at that position, a black or yellow cell a letter that
    is not there, the count is at most the number of copies and equal to it
    when the flag is set. *)
Definition consistent (answer : str) (arr : array) : Prop :=
  shape arr /\
  forall i, (i < 26)%nat ->
    (forall j, (j < 5)%nat ->
       exists v, cell arr i j = Some v /\
         (eq_str v "g" = true -> answer !! j = Some (letter_of i)) /\
         (eq_str v "b" = true \/ eq_str v "y" = true ->
            answer !! j <> Some (letter_of i))) /\
    exists m e, cell arr i 5 = Some (PInt m) /\ cell arr i 6 = Some e /\
      m <= count (letter_of i) answer /\
      (truthy e = true -> m = count (letter_of i) answer).

(** ** Arrays the program builds, and the filter *)

(** Column 5 of every row holds a number, as in every array obtained from
    [new_array] by [generate_array]. *)
Definition typed (arr : array) : Prop :=
  shape arr /\
  forall i, (i < 26)%nat -> exists x z, cell arr i 5 = Some x /\ as_number x = Ok z.

(** [valid_guess] returned [True]. *)
Definition accepts (arr : array) (word : str) : bool :=
  match valid_guess word arr with
  | Ok true => true
  | _ => false
  end.

(** The update with [guess] and [check] loses nothing the array holds: a
    position cell it overwrites was not green unless the new colour is
    green, and not black or yellow unless the new colour is black or yellow;
    the stored count of each letter of the guess is a number, a lower bound
    not above the new count, or an exact count that is written again as
    exact. *)
Definition keeps_information (guess check : str) (arr : array) : Prop :=
  (forall j c x v, guess !! j = Some c -> check !! j = Some x ->
     cell arr (row_of c) j = Some v ->
     (eq_str v "g" = true -> x = "g"%char) /\
     (eq_str v "b" = true \/ eq_str v "y" = true ->
        x = "b"%char \/ x = "y"%char)) /\
  (forall c, c ∈ guess ->
     exists lf ex z,
       cell arr (row_of c) 5 = Some lf /\ cell arr (row_of c) 6 = Some ex /\
       as_number lf = Ok z /\
       ((truthy ex = false /\ z <= marked c guess check) \/
        (truthy ex = true /\ blacked c guess check = true /\
         z = marked c guess check))).

(** ** Conditions on the float arithmetic, and notions for the ranking *)

(** [1 / (c / n)] and its logarithm are defined for a bucket count [c] of
    [n] answers: the quotient of two positive ints is a positive float. *)
Definition floats_defined (FP : PyFloat) : Prop :=
  forall c n, 1 <= c <= n ->
    exists r l, float_inv (int_truediv c n) = Ok r /\ math_log2 r = Ok l.



Definition is_float {FP : PyFloat} (n : pynum) : Prop :=
  exists x, n = NFloat x.

(** The count a dict holds for a key, [0] for a missing key, and the sum of
    its counts. *)
Fixpoint dict_count (d : list (str * Z)) (key : str) : Z :=
  match d with
  | [] => 0
  | (k, v) :: d' => if bool_decide (k = key) then v else dict_count d' key
  end.

Fixpoint dict_total (d : list (str * Z)) : Z :=
  match d with
  | [] => 0
  | (_, v) :: d' => v + dict_total d'
  end.

(** The state of [computer_play_wordle] at the start of a pass: the array,
    the suggestion and the number of passes completed so far. *)
Inductive pass_state {FP : PyFloat} (lines : list str) (answer : str)
  : nat -> array * str * Z -> Prop :=
| pass_first : pass_state lines answer 0 (new_array, s "tares", 0)
| pass_next (k : nat) (st st' : array * str * Z) :
    pass_state lines answer k st ->
    play_turn lines answer st = Ok (Continue st') ->
    pass_state lines answer (S k) st'.

(** The sum of a list of ints. *)
Definition total (l : list Z) : Z := foldr Z.add 0 l.

(** The words whose number of turns marks a failure. *)
Definition failures (words : list str) (turns : list Z) : list str :=
  fst <$> List.filter (fun p => 7 <=? snd p) (zip words turns).

(** An entry of the ranking for [word] whose entropy equals that of the
    entry [top]. *)
Definition ties_with_top {FP : PyFloat} (entropy_list : list (str * pynum))
  (top : str * pynum) (word : str) : bool :=
  existsb (fun e => bool_decide (fst e = word) && num_eq (snd top) (snd e))
    entropy_list.

(** The array after the guess "tares" with the check string "byyyy". *)
Definition after_tares : array :=
  Eval vm_compute in
    match generate_array (s "tares") (s "byyyy") new_array with
    | Ok arr => arr
    | Raise _ => []
    end.

(** ** Subscripts *)

Lemma py_index_nat (n j : nat) :
  (j < n)%nat -> py_index n (Z.of_nat j) = Ok j.
Proof.
  intros Hj. unfold py_index.
  replace ((0 <=? Z.of_nat j) && (Z.of_nat j <? Z.of_nat n)) with true.
  - by rewrite Nat2Z.id.
  - symmetry. apply andb_true_iff. split; [apply Z.leb_le | apply Z.ltb_lt]; lia.
Qed.

Lemma py_index_neg (n : nat) (k : Z) :
  1 <= k <= Z.of_nat n -> py_index n (- k) = Ok (n - Z.to_nat k)%nat.
Proof.
  intros Hk. unfold py_index.
  replace ((0 <=? - k) && (- k <? Z.of_nat n)) with false.
  - replace ((- Z.of_nat n <=? - k) && (- k <? 0)) with true.
    + f_equal. lia.
    + symmetry. apply andb_true_iff. split; [apply Z.leb_le | apply Z.ltb_lt]; lia.
  - symmetry. apply andb_false_iff. left. apply Z.leb_gt. lia.
Qed.

Lemma py_index_lt (n : nat) (i : Z) (k : nat) :
  py_index n i = Ok k -> (k < n)%nat.
Proof.
  unfold py_index. intros H.
  destruct ((0 <=? i) && (i <? Z.of_nat n)) eqn:E1.
  - apply andb_true_iff in E1 as [?%Z.leb_le ?%Z.ltb_lt]. inversion H. lia.
  - destruct ((- Z.of_nat n <=? i) && (i <? 0)) eqn:E2; [|discriminate].
    apply andb_true_iff in E2 as [?%Z.leb_le ?%Z.ltb_lt]. inversion H. lia.
Qed.

Lemma getitem_nat {A : Type} (l : list A) (j : nat) (x : A) :
  l !! j = Some x -> getitem l (Z.of_nat j) = Ok x.
Proof.
  intros H. unfold getitem.
  rewrite py_index_nat; [| by eapply lookup_lt_Some]. simpl. by rewrite H.
Qed.

Lemma getitem_neg {A : Type} (l : list A) (k : Z) (x : A) :
  1 <= k <= Z.of_nat (length l) ->
  l !! (length l - Z.to_nat k)%nat = Some x -> getitem l (- k) = Ok x.
Proof.
  intros Hk H. unfold getitem. rewrite py_index_neg; [|done]. simpl. by rewrite H.
Qed.

Lemma getitem_out {A : Type} (l : list A) (j : nat) :
  (length l <= j)%nat -> getitem l (Z.of_nat j) = Raise IndexError.
Proof.
  intros Hj. unfold getitem, py_index.
  replace ((0 <=? Z.of_nat j) && (Z.of_nat j <? Z.of_nat (length l))) with false.
  - replace ((- Z.of_nat (length l) <=? Z.of_nat j) && (Z.of_nat j <? 0)) with false; [done|].
    symmetry. apply andb_false_iff. right. apply Z.ltb_ge. lia.
  - symmetry. apply andb_false_iff. right. apply Z.ltb_ge. lia.
Qed.

Lemma setitem_nat {A : Type} (l : list A) (j : nat) (v : A) :
  (j < length l)%nat -> setitem l (Z.of_nat j) v = Ok (<[j:=v]> l).
Proof. intros Hj. unfold setitem. by rewrite py_index_nat. Qed.

Lemma setitem_neg {A : Type} (l : list A) (k : Z) (v : A) :
  1 <= k <= Z.of_nat (length l) ->
  setitem l (- k) v = Ok (<[(length l - Z.to_nat k)%nat:=v]> l).
Proof. intros Hk. unfold setitem. by rewrite py_index_neg. Qed.

(** ** Letters and rows *)

Lemma index_of_letter_row (c : ascii) :
  lower c -> index_of_letter c = Z.of_nat (row_of c) /\ (row_of c < 26)%nat.
Proof.
  unfold lower, index_of_letter, row_of. intros H.
  change (nat_of_ascii "a") with 97%nat. lia.
Qed.

Lemma letter_of_row (c : ascii) : lower c -> letter_of (row_of c) = c.
Proof.
  unfold lower, letter_of, row_of. intros H.
  replace (97 + (nat_of_ascii c - 97))%nat with (nat_of_ascii c) by lia.
  apply ascii_nat_embedding.
Qed.

Lemma row_of_letter (i : nat) : (i < 26)%nat -> row_of (letter_of i) = i.
Proof.
  unfold letter_of, row_of. intros H.
  rewrite nat_ascii_embedding; lia.
Qed.

Lemma lower_letter_of (i : nat) : (i < 26)%nat -> lower (letter_of i).
Proof.
  unfold letter_of, lower. intros H. rewrite nat_ascii_embedding; lia.
Qed.

Lemma row_of_inj (c d : ascii) : lower c -> lower d -> row_of c = row_of d -> c = d.
Proof.
  intros Hc Hd H. rewrite <- (letter_of_row c Hc), <- (letter_of_row d Hd).
  by rewrite H.
Qed.

(** ** Loops *)

Lemma for_all_true {A : Type} (xs : list A) (test : A -> result bool) :
  for_all xs test = Ok true <-> Forall (fun x => test x = Ok true) xs.
Proof.
  induction xs as [|x xs IH]; simpl.
  - split; [constructor | done].
  - split.
    + intros H. destruct (test x) as [[|]|] eqn:E; simpl in H; try discriminate.
      constructor; [done | by apply IH].
    + intros H. inversion H as [|? ? Hx Hxs]; subst. rewrite Hx. simpl. by apply IH.
Qed.

Lemma for_all_in_bounds {A : Type} (xs : list A) (test : A -> result bool) :
  Forall (fun x => in_bounds (test x)) xs -> in_bounds (for_all xs test).
Proof.
  induction 1 as [|x xs Hx _ IH]; simpl; [done|].
  unfold in_bounds in *. destruct (test x) as [[|]|e]; simpl; congruence.
Qed.

Lemma for_all_total {A : Type} (xs : list A) (test : A -> result bool) :
  Forall (fun x => exists b, test x = Ok b) xs -> exists b, for_all xs test = Ok b.
Proof.
  induction 1 as [|x xs [b Hx] _ [b' IH]]; simpl; [by eexists|].
  rewrite Hx. simpl. destruct b; eauto.
Qed.

Lemma Forall_range (P : Z -> Prop) (n : nat) :
  Forall P (range n) <-> forall j, (j < n)%nat -> P (Z.of_nat j).
Proof.
  unfold range. rewrite Forall_forall. split.
  - intros H j Hj. apply H. apply list_elem_of_fmap. exists j. split; [done|].
    apply elem_of_seq. lia.
  - intros H x Hx. apply list_elem_of_fmap in Hx as [j [-> Hj]].
    apply elem_of_seq in Hj. apply H. lia.
Qed.

Lemma for_each_app {A S : Type} (xs ys : list A) (body : A -> S -> result S) (st : S) :
  for_each (xs ++ ys) body st = (st' <~ for_each xs body st ;; for_each ys body st').
Proof.
  revert st. induction xs as [|x xs IH]; intros st; simpl; [done|].
  destruct (body x st); simpl; [apply IH | done].
Qed.

Lemma range_S (n : nat) : range (S n) = range n ++ [Z.of_nat n].
Proof. unfold range. rewrite seq_S. by rewrite map_app. Qed.

(** The invariant rule for [for j in range(n)]: the body never raises and
    carries the invariant from [j] to [j + 1]. *)
Lemma for_each_range_inv {S : Type} (I : nat -> S -> Prop) (n : nat)
  (body : Z -> S -> result S) (st : S) :
  I 0%nat st ->
  (forall j st1, (j < n)%nat -> I j st1 ->
     exists st2, body (Z.of_nat j) st1 = Ok st2 /\ I (Datatypes.S j) st2) ->
  exists st', for_each (range n) body st = Ok st' /\ I n st'.
Proof.
  intros H0 Hstep. induction n as [|n IH].
  - exists st. by split.
  - destruct IH as [st1 [E1 I1]]; [intros; apply Hstep; [lia | done] |].
    destruct (Hstep n st1) as [st2 [E2 I2]]; [lia | done |].
    exists st2. split; [|done].
    rewrite range_S, for_each_app, E1. simpl. by rewrite E2.
Qed.

(** Apply the rule to the first [range] loop of the goal: the goals are the
    invariant at entry, its preservation, and the rest of the proof from
    the final state. *)
Ltac range_loop Inv :=
  match goal with
  | |- context [for_each (range ?n) ?b ?st0] =>
      let st := fresh "st" in
      let E := fresh "E" in
      let HI := fresh "HI" in
      destruct (for_each_range_inv Inv n b st0) as (st & E & HI);
      [ | | revert st E HI ]
  end.

(** The same rule for a loop over the elements of a list. *)
Lemma for_each_list_inv {A S : Type} (I : list A -> S -> Prop) (xs : list A)
  (body : A -> S -> result S) (st : S) :
  I [] st ->
  (forall pre x st1, (exists post, xs = pre ++ x :: post) -> I pre st1 ->
     exists st2, body x st1 = Ok st2 /\ I (pre ++ [x]) st2) ->
  exists st', for_each xs body st = Ok st' /\ I xs st'.
Proof.
  intros H0 Hstep.
  assert (G : forall pre post st1, xs = pre ++ post -> I pre st1 ->
            exists st', for_each post body st1 = Ok st' /\ I xs st').
  { intros pre post. revert pre. induction post as [|x post IH]; intros pre st1 E I1.
    - exists st1. rewrite app_nil_r in E. subst. by split.
    - destruct (Hstep pre x st1) as [st2 [E2 I2]]; [by exists post | done |].
      simpl. rewrite E2. simpl. apply (IH (pre ++ [x])); [|done].
      by rewrite <- app_assoc. }
  by apply (G [] xs st).
Qed.

(** ** Counting *)

Lemma tally_app {A : Type} (P : A -> bool) (l1 l2 : list A) :
  tally P (l1 ++ l2) = tally P l1 + tally P l2.
Proof. induction l1 as [|x l1 IH]; simpl; lia. Qed.

Lemma tally_nonneg {A : Type} (P : A -> bool) (l : list A) : 0 <= tally P l.
Proof. induction l as [|x l IH]; simpl; [lia | destruct (P x); lia]. Qed.

Lemma tally_snoc {A : Type} (P : A -> bool) (l : list A) (x : A) :
  tally P (l ++ [x]) = tally P l + (if P x then 1 else 0).
Proof. rewrite tally_app. simpl. lia. Qed.

Lemma tally_take_le {A : Type} (P : A -> bool) (l : list A) (k : nat) :
  tally P (take k l) <= tally P l.
Proof.
  rewrite <- (take_drop k l) at 2. rewrite tally_app.
  pose proof (tally_nonneg P (drop k l)). lia.
Qed.

Lemma tally_ext {A : Type} (P Q : A -> bool) (l : list A) :
  (forall x, x ∈ l -> P x = Q x) -> tally P l = tally Q l.
Proof.
  induction l as [|x l IH]; intros H; simpl; [done|].
  rewrite (H x); [| by left]. rewrite IH; [done|].
  intros y Hy. apply H. by right.
Qed.

Lemma tally_fmap {A B : Type} (f : A -> B) (P : B -> bool) (l : list A) :
  tally P (f <$> l) = tally (fun x => P (f x)) l.
Proof. induction l as [|x l IH]; csimpl; [done | by rewrite IH]. Qed.

Lemma count_pos_elem (c : ascii) (w : str) : 1 <= count c w <-> c ∈ w.
Proof.
  unfold count. induction w as [|x w IH]; simpl.
  - split; [lia | by intros ?%elem_of_nil].
  - pose proof (tally_nonneg (fun x => bool_decide (x = c)) w) as Hn.
    rewrite elem_of_cons. case_bool_decide as Hx.
    + split; [intros _; by left | lia].
    + rewrite <- IH. split; [intros; right; lia | intros [?|?]; [congruence | lia]].
Qed.

Lemma contains_count (w : str) (c : ascii) : contains w c = (1 <=? count c w).
Proof.
  unfold contains. pose proof (count_pos_elem c w).
  case_bool_decide as Hc; destruct (Z.leb_spec 1 (count c w)) as [Hle|Hgt];
    try reflexivity.
  - apply H in Hc. lia.
  - apply H in Hle. contradiction.
Qed.

(** ** Rows and cells under the 26x7 shape *)

Lemma shape_new_array : shape new_array.
Proof.
  split; [reflexivity|]. unfold new_array.
  apply Forall_forall. intros row Hrow.
  apply elem_of_replicate in Hrow as [-> _]. reflexivity.
Qed.

Lemma shape_row (arr : array) (i : nat) :
  shape arr -> (i < 26)%nat -> exists row, arr !! i = Some row /\ length row = 7%nat.
Proof.
  intros [Hlen Hrows] Hi.
  destruct (lookup_lt_is_Some_2 arr i) as [row Hrow]; [lia|].
  exists row. split; [done|].
  by apply (Forall_lookup_1 _ _ _ _ Hrows Hrow).
Qed.

Lemma getitem2_shape (arr : array) (i : nat) (j : Z) (c : nat) :
  shape arr -> (i < 26)%nat -> py_index 7 j = Ok c ->
  exists v, cell arr i c = Some v /\ getitem2 arr (Z.of_nat i) j = Ok v.
Proof.
  intros Hs Hi Hj. destruct (shape_row arr i Hs Hi) as [row [Hrow Hlen]].
  destruct (lookup_lt_is_Some_2 row c) as [v Hv].
  { rewrite Hlen. by eapply py_index_lt. }
  exists v. unfold cell, getitem2. rewrite Hrow. simpl. split; [done|].
  rewrite (getitem_nat _ _ _ Hrow). simpl. unfold getitem.
  rewrite Hlen, Hj. simpl. by rewrite Hv.
Qed.

Lemma setitem2_shape (arr : array) (i : nat) (j : Z) (c : nat) (v : pyval) :
  shape arr -> (i < 26)%nat -> py_index 7 j = Ok c ->
  exists arr', setitem2 arr (Z.of_nat i) j v = Ok arr' /\ shape arr' /\
    forall i' c', cell arr' i' c' =
      if bool_decide (i' = i /\ c' = c) then Some v else cell arr i' c'.
Proof.
  intros Hs Hi Hj. destruct (shape_row arr i Hs Hi) as [row [Hrow Hlen]].
  pose proof (py_index_lt _ _ _ Hj) as Hc.
  exists (<[i:=<[c:=v]> row]> arr). split; [|split].
  - unfold setitem2. rewrite (getitem_nat _ _ _ Hrow). simpl.
    unfold setitem at 1. rewrite Hlen, Hj. simpl.
    apply setitem_nat. destruct Hs. lia.
  - destruct Hs as [Hl Hr]. split; [by rewrite length_insert|].
    apply Forall_insert; [done|]. cbv beta. by rewrite length_insert.
  - intros i' c'. unfold cell. destruct Hs as [Hl Hr].
    destruct (decide (i' = i)) as [->|Hne].
    + rewrite list_lookup_insert_eq by lia. simpl. rewrite Hrow. simpl.
      destruct (decide (c' = c)) as [->|Hne'].
      * rewrite bool_decide_eq_true_2 by done.
        apply list_lookup_insert_eq. lia.
      * rewrite bool_decide_eq_false_2 by tauto.
        by apply list_lookup_insert_ne.
    + rewrite bool_decide_eq_false_2 by tauto.
      by rewrite list_lookup_insert_ne.
Qed.

Lemma word_lookup (w : str) (j : nat) :
  Forall lower w -> (j < length w)%nat -> exists c, w !! j = Some c /\ lower c.
Proof.
  intros Hw Hj. destruct (lookup_lt_is_Some_2 w j Hj) as [c Hc].
  exists c. split; [done|]. by apply (Forall_lookup_1 _ _ _ _ Hw Hc).
Qed.

(** ** [compute_letter_freq] *)

Lemma compute_letter_freq_spec (letter : ascii) (guess check : str) :
  (length guess <= length check)%nat ->
  compute_letter_freq letter guess check
  = Ok (marked letter guess check, blacked letter guess check).
Proof.
  intros Hlen. unfold compute_letter_freq.
  range_loop (fun (k : nat) (st : Z * bool) =>
    st = (tally (fun p => (Ascii.eqb (snd p) "g" || Ascii.eqb (snd p) "y")
                          && Ascii.eqb (fst p) letter) (take k (zip guess check)),
          existsb (fun p => Ascii.eqb (snd p) "b" && Ascii.eqb (fst p) letter)
                  (take k (zip guess check)))).
  - done.
  - intros j st1 Hj ->.
    destruct (lookup_lt_is_Some_2 guess j Hj) as [g Hg].
    destruct (lookup_lt_is_Some_2 check j) as [c Hc]; [lia|].
    assert (Hz : zip guess check !! j = Some (g, c)).
    { apply lookup_zip_with_Some. by exists g, c. }
    rewrite (take_S_r _ _ _ Hz), tally_snoc, existsb_app. simpl.
    rewrite (getitem_nat _ _ _ Hc), (getitem_nat _ _ _ Hg). simpl.
    eexists. split; [|reflexivity].
    destruct (Ascii.eqb_spec c "g") as [->|Ng]; simpl.
    { destruct (Ascii.eqb g letter); simpl; by rewrite ?orb_false_r, ?Z.add_0_r. }
    destruct (Ascii.eqb_spec c "y") as [->|Ny]; simpl.
    { destruct (Ascii.eqb g letter); simpl; by rewrite ?orb_false_r, ?Z.add_0_r. }
    destruct (Ascii.eqb c "b"), (Ascii.eqb g letter); simpl;
      rewrite ?orb_false_r, ?orb_true_r, ?Z.add_0_r; reflexivity.
  - intros st -> ->. unfold marked, blacked.
    rewrite take_ge; [done|]. rewrite length_zip_with. lia.
Qed.

(** ** [generate_array] *)

Lemma letter_of_eq_row (i : nat) (g : ascii) :
  (i < 26)%nat -> lower g -> letter_of i = g <-> i = row_of g.
Proof.
  intros Hi Hg. split.
  - intros <-. by rewrite row_of_letter.
  - intros ->. by apply letter_of_row.
Qed.

Lemma bool_decide_ext_if {A : Type} (P Q : Prop) `{Decision P, Decision Q} (x y : A) :
  (P <-> Q) ->
  (if bool_decide P then x else y) = (if bool_decide Q then x else y).
Proof. intros HPQ. by rewrite (bool_decide_ext P Q HPQ). Qed.

Lemma generate_array_stored (guess check : str) (arr : array) :
  word5 guess -> (5 <= length check)%nat -> shape arr ->
  exists arr', generate_array guess check arr = Ok arr' /\ shape arr' /\
               stored guess check 5 arr arr'.
Proof.
  intros [Hlen Hlow] Hcheck Hshape. unfold generate_array.
  range_loop (fun (k : nat) (a : array) => shape a /\ stored guess check k arr a).
  - split; [done|]. repeat split; intros; by rewrite bool_decide_eq_false_2.
  - intros j a Hj [Hsa (H1 & H2 & H3)].
    destruct (word_lookup guess j Hlow Hj) as [g [Hg Hgl]].
    destruct (lookup_lt_is_Some_2 check j) as [c Hc]; [lia|].
    destruct (index_of_letter_row g Hgl) as [Hidx Hrow].
    rewrite (getitem_nat _ _ _ Hg). simpl.
    rewrite compute_letter_freq_spec by lia. simpl.
    rewrite (getitem_nat _ _ _ Hc). simpl. rewrite Hidx.
    destruct (setitem2_shape a (row_of g) (Z.of_nat j) j (PStr c) Hsa Hrow)
      as (a1 & E1 & Hs1 & C1); [apply py_index_nat; lia|].
    destruct (setitem2_shape a1 (row_of g) (-2) 5 (PInt (marked g guess check)) Hs1 Hrow)
      as (a2 & E2 & Hs2 & C2); [reflexivity|].
    destruct (setitem2_shape a2 (row_of g) (-1) 6 (PBool (blacked g guess check)) Hs2 Hrow)
      as (a3 & E3 & Hs3 & C3); [reflexivity|].
    rewrite E1. simpl. rewrite E2. simpl. rewrite E3.
    exists a3. split; [done|]. split; [done|].
    assert (Hmem : forall i, (i < 26)%nat ->
              letter_of i ∈ take (S j) guess <->
              i = row_of g \/ letter_of i ∈ take j guess).
    { intros i Hi. rewrite (take_S_r _ _ _ Hg), elem_of_app, list_elem_of_singleton.
      rewrite (letter_of_eq_row i g Hi Hgl). tauto. }
    repeat split.
    + intros i j' Hi Hj'. rewrite C3, C2, C1, (H1 i j' Hi Hj').
      rewrite (bool_decide_eq_false_2 (_ /\ j' = 6%nat)) by lia.
      rewrite (bool_decide_eq_false_2 (_ /\ j' = 5%nat)) by lia.
      destruct (decide (j' = j)) as [->|Hne].
      * destruct (decide (i = row_of g)) as [->|Hne'].
        -- rewrite bool_decide_eq_true_2 by done.
           rewrite (bool_decide_eq_true_2 (_ /\ guess !! j = _)).
           ++ by rewrite Hc.
           ++ split; [lia|]. rewrite Hg. f_equal. symmetry. by apply letter_of_row.
        -- rewrite bool_decide_eq_false_2 by tauto.
           rewrite bool_decide_eq_false_2 by lia.
           rewrite bool_decide_eq_false_2; [done|].
           intros [_ Heq]. rewrite Hg in Heq. inversion Heq as [Heq'].
           symmetry in Heq'. by apply (letter_of_eq_row i g Hi Hgl) in Heq'.
      * rewrite bool_decide_eq_false_2 by tauto.
        apply bool_decide_ext_if. split; intros [? ?]; split; (lia || done).
    + intros i Hi. rewrite C3, C2, C1, (H2 i Hi).
      rewrite (bool_decide_eq_false_2 (_ /\ 5%nat = 6%nat)) by lia.
      rewrite (bool_decide_eq_false_2 (_ /\ 5%nat = j)) by lia.
      destruct (decide (i = row_of g)) as [->|Hne].
      * rewrite bool_decide_eq_true_2 by done.
        rewrite bool_decide_eq_true_2 by (apply Hmem; tauto).
        by rewrite letter_of_row.
      * rewrite bool_decide_eq_false_2 by tauto.
        apply bool_decide_ext_if. rewrite (Hmem i Hi). tauto.
    + intros i Hi. rewrite C3, C2, C1, (H3 i Hi).
      rewrite (bool_decide_eq_false_2 (_ /\ 6%nat = 5%nat)) by lia.
      rewrite (bool_decide_eq_false_2 (_ /\ 6%nat = j)) by lia.
      destruct (decide (i = row_of g)) as [->|Hne].
      * rewrite bool_decide_eq_true_2 by done.
        rewrite bool_decide_eq_true_2 by (apply Hmem; tauto).
        by rewrite letter_of_row.
      * rewrite bool_decide_eq_false_2 by tauto.
        apply bool_decide_ext_if. rewrite (Hmem i Hi). tauto.
  - intros a -> [Hs Hst]. rewrite Hlen in *. eauto.
Qed.

(** ** The feedback rule *)

Lemma tallied_zeros : tallied (replicate 26 0) (fun _ => 0).
Proof.
  split; [reflexivity|]. intros i Hi. by apply lookup_replicate_2.
Qed.

Lemma tallied_ext (l : list Z) (f f' : ascii -> Z) :
  tallied l f -> (forall i, (i < 26)%nat -> f' (letter_of i) = f (letter_of i)) ->
  tallied l f'.
Proof.
  intros [Hl Hf] He. split; [done|]. intros i Hi. rewrite He by done. by apply Hf.
Qed.

Lemma tallied_getitem (l : list Z) (f : ascii -> Z) (c : ascii) :
  tallied l f -> lower c -> getitem l (index_of_letter c) = Ok (f c).
Proof.
  intros [Hl Hf] Hc. destruct (index_of_letter_row c Hc) as [-> Hr].
  apply getitem_nat. rewrite (Hf _ Hr). by rewrite letter_of_row.
Qed.

Lemma tallied_iadd (l : list Z) (f f' : ascii -> Z) (c : ascii) (d : Z) :
  tallied l f -> lower c ->
  (forall x, lower x -> f' x = if Ascii.eqb c x then f x + d else f x) ->
  exists l', iadd l (index_of_letter c) d = Ok l' /\ tallied l' f'.
Proof.
  intros Ht Hc Hf'. pose proof (tallied_getitem l f c Ht Hc) as Hget.
  destruct Ht as [Hl Hf]. destruct (index_of_letter_row c Hc) as [Hidx Hr].
  exists (<[row_of c := f c + d]> l). split.
  - unfold iadd. rewrite Hget. simpl. rewrite Hidx. apply setitem_nat. lia.
  - split; [by rewrite length_insert|]. intros i Hi.
    rewrite (Hf' _ (lower_letter_of i Hi)).
    destruct (decide (i = row_of c)) as [->|Hne].
    + rewrite letter_of_row by done. rewrite Ascii.eqb_refl.
      apply list_lookup_insert_eq. lia.
    + destruct (Ascii.eqb_spec c (letter_of i)) as [Heq|_].
      * exfalso. apply Hne. by apply letter_of_eq_row.
      * rewrite list_lookup_insert_ne by done. by apply Hf.
Qed.

Lemma count_snoc (c x : ascii) (w : str) :
  count c (w ++ [x]) = count c w + (if bool_decide (x = c) then 1 else 0).
Proof. unfold count. by rewrite tally_snoc. Qed.

Lemma greens_snoc (c g a : ascii) (ps : list (ascii * ascii)) :
  greens c (ps ++ [(g, a)])
  = greens c ps + (if Ascii.eqb g c && Ascii.eqb g a then 1 else 0).
Proof. unfold greens. by rewrite tally_snoc. Qed.

Lemma nongreens_snoc (c g a : ascii) (ps : list (ascii * ascii)) :
  nongreens c (ps ++ [(g, a)])
  = nongreens c ps + (if Ascii.eqb g c && negb (Ascii.eqb g a) then 1 else 0).
Proof. unfold nongreens. by rewrite tally_snoc. Qed.

Lemma tally_le {A : Type} (P Q : A -> bool) (l : list A) :
  (forall x, P x = true -> Q x = true) -> tally P l <= tally Q l.
Proof.
  intros H. induction l as [|x l IH]; simpl; [lia|].
  destruct (P x) eqn:E; [rewrite (H x E); lia | destruct (Q x); lia].
Qed.

(** The green tiles of a letter never outnumber its copies in the answer. *)
Lemma green_total_le_count (guess answer : str) (c : ascii) :
  (length answer <= length guess)%nat ->
  green_total guess answer c <= count c answer.
Proof.
  intros Hlen. unfold green_total, greens, count.
  rewrite <- (snd_zip guess answer) at 2 by done.
  rewrite tally_fmap. apply tally_le. intros [g a]. simpl.
  intros [H1 H2]%andb_true_iff.
  apply Ascii.eqb_eq in H1, H2. subst. by apply bool_decide_eq_true_2.
Qed.

(** The copies of a letter in a prefix of the guess split into green and
    non-green tiles. *)
Lemma count_take_split (guess answer : str) (c : ascii) (k : nat) :
  (length guess <= length answer)%nat ->
  count c (take k guess)
  = greens c (take k (zip guess answer)) + nongreens c (take k (zip guess answer)).
Proof.
  intros Hlen. unfold count, greens, nongreens.
  rewrite <- (fst_zip guess answer) at 1 by done.
  rewrite <- fmap_take, tally_fmap.
  induction (take k (zip guess answer)) as [|[g a] ps IH]; simpl; [done|].
  rewrite IH.
  destruct (Ascii.eqb_spec g c) as [->|Hne]; simpl.
  - rewrite bool_decide_eq_true_2 by done. destruct (Ascii.eqb c a); simpl; lia.
  - rewrite bool_decide_eq_false_2 by done. lia.
Qed.

Lemma zip_lookup (guess answer : str) (j : nat) (g a : ascii) :
  guess !! j = Some g -> answer !! j = Some a -> zip guess answer !! j = Some (g, a).
Proof. intros Hg Ha. apply lookup_zip_with_Some. by exists g, a. Qed.

(** [compute_wordle_information] returns, position by position, the colour
    the specification gives. *)
Lemma feedback_rule (guess answer : str) :
  length guess = length answer -> Forall lower answer ->
  exists check,
    compute_wordle_information guess answer = Ok check /\
    length check = length guess /\
    forall j g a, guess !! j = Some g -> answer !! j = Some a ->
      check !! j = Some (spec_color guess answer j g a).
Proof.
  intros Hlen Hlow. unfold compute_wordle_information.
  range_loop (fun (k : nat) (st : list Z * list Z) =>
    tallied (fst st) (fun c => count c (take k answer)) /\
    tallied (snd st) (fun c => greens c (take k (zip guess answer)))).
  - simpl. split; apply tallied_zeros.
  - intros k [fa ga] Hk [Hfa Hga]. simpl in Hfa, Hga.
    destruct (word_lookup answer k Hlow Hk) as [a [Ha Hal]].
    destruct (lookup_lt_is_Some_2 guess k) as [g Hg]; [lia|].
    pose proof (zip_lookup _ _ _ _ _ Hg Ha) as Hz.
    rewrite (getitem_nat _ _ _ Ha). simpl.
    destruct (tallied_iadd fa _ (fun c => count c (take (S k) answer)) a 1 Hfa Hal)
      as [fa' [E1 Hfa']].
    { intros x _. rewrite (take_S_r _ _ _ Ha), count_snoc.
      destruct (Ascii.eqb_spec a x) as [->|Hne].
      - by rewrite bool_decide_eq_true_2.
      - rewrite bool_decide_eq_false_2 by done. lia. }
    rewrite E1. simpl. rewrite (getitem_nat _ _ _ Hg). simpl.
    destruct (Ascii.eqb_spec g a) as [->|Hne].
    + destruct (tallied_iadd ga _ (fun c => greens c (take (S k) (zip guess answer)))
                  a 1 Hga Hal) as [ga' [E2 Hga']].
      { intros x _. rewrite (take_S_r _ _ _ Hz), greens_snoc.
        rewrite Ascii.eqb_refl, andb_true_r.
        destruct (Ascii.eqb a x); lia. }
      rewrite E2. simpl. eexists. split; [reflexivity|]. by split.
    + eexists. split; [reflexivity|]. split; [done|]. simpl.
      apply (tallied_ext _ _ _ Hga). intros i Hi.
      rewrite (take_S_r _ _ _ Hz), greens_snoc.
      destruct (Ascii.eqb_spec g a) as [?|_]; [done|].
      rewrite andb_false_r. lia.
  - intros [fa ga] -> [Hfa Hga]. simpl in *.
    rewrite take_ge in Hfa by lia.
    rewrite take_ge in Hga by (rewrite length_zip_with; lia).
    range_loop (fun (k : nat) (st : list ascii * list Z) =>
      length (fst st) = k /\
      (forall j g a, (j < k)%nat -> guess !! j = Some g -> answer !! j = Some a ->
         fst st !! j = Some (spec_color guess answer j g a)) /\
      tallied (snd st)
        (fun c => green_total guess answer c - greens c (take k (zip guess answer)))).
    + simpl. split; [done|]. split; [intros; lia|].
      apply (tallied_ext _ _ _ Hga). intros i Hi. unfold green_total.
      rewrite take_0. unfold greens at 2. simpl. lia.
    + intros k [sq gr] Hk (Hl & Hcol & Hgr). simpl in Hl, Hcol, Hgr.
      destruct (lookup_lt_is_Some_2 guess k Hk) as [g Hg].
      destruct (lookup_lt_is_Some_2 answer k) as [a Ha]; [lia|].
      pose proof (zip_lookup _ _ _ _ _ Hg Ha) as Hz.
      rewrite (getitem_nat _ _ _ Hg). simpl. rewrite (getitem_nat _ _ _ Ha). simpl.
      replace (Z.to_nat (Z.of_nat k + 1)) with (S k) by lia.
      assert (Hnew : forall c' (sq' : list ascii),
                 c' = spec_color guess answer k g a ->
                 length (sq ++ [c']) = S k /\
                 forall j g0 a0, (j < S k)%nat -> guess !! j = Some g0 ->
                   answer !! j = Some a0 ->
                   (sq ++ [c']) !! j = Some (spec_color guess answer j g0 a0)).
      { intros c' _ ->. split; [rewrite length_app; simpl; lia|].
        intros j g0 a0 Hj Hg0 Ha0. destruct (decide (j = k)) as [->|Hjk].
        - rewrite lookup_app_r by lia. rewrite Hl, Nat.sub_diag. simpl.
          congruence.
        - rewrite lookup_app_l by lia. apply Hcol; [lia | done | done]. }
      destruct (Ascii.eqb_spec g a) as [->|Hne].
      * assert (Hal : lower a) by (by apply (Forall_lookup_1 _ _ _ _ Hlow Ha)).
        destruct (tallied_iadd gr _
                    (fun c => green_total guess answer c
                              - greens c (take (S k) (zip guess answer)))
                    a (-1) Hgr Hal) as [gr' [E2 Hgr']].
        { intros x _. rewrite (take_S_r _ _ _ Hz), greens_snoc.
          rewrite Ascii.eqb_refl, andb_true_r. destruct (Ascii.eqb a x); lia. }
        rewrite E2. simpl. eexists. split; [reflexivity|]. simpl.
        destruct (Hnew "g"%char sq) as [? ?].
        { unfold spec_color. by rewrite Ascii.eqb_refl. }
        split; [done|]. by split.
      * pose proof (count_take_split guess answer g (S k) ltac:(lia)) as Hsplit.
        rewrite (take_S_r _ _ _ Hz), greens_snoc, nongreens_snoc in Hsplit.
        pose proof (tally_take_le
          (fun p => Ascii.eqb (fst p) g && Ascii.eqb (fst p) (snd p))
          (zip guess answer) k) as Hgk.
        fold (greens g (take k (zip guess answer))) in Hgk.
        fold (greens g (zip guess answer)) in Hgk.
        fold (green_total guess answer g) in Hgk.
        pose proof (green_total_le_count guess answer g ltac:(lia)) as HGF.
        pose proof (tally_nonneg
          (fun p => Ascii.eqb (fst p) g && negb (Ascii.eqb (fst p) (snd p)))
          (take k (zip guess answer))) as HN0.
        fold (nongreens g (take k (zip guess answer))) in HN0.
        pose proof (tally_nonneg
          (fun p => Ascii.eqb (fst p) g && Ascii.eqb (fst p) (snd p))
          (take k (zip guess answer))) as HG0.
        fold (greens g (take k (zip guess answer))) in HG0.
        assert (Hup : nongreen_upto guess answer g k
                      = nongreens g (take k (zip guess answer)) + 1).
        { unfold nongreen_upto. rewrite (take_S_r _ _ _ Hz), nongreens_snoc.
          rewrite Ascii.eqb_refl. simpl.
          destruct (Ascii.eqb_spec g a); [done | reflexivity]. }
        rewrite Ascii.eqb_refl in Hsplit. simpl in Hsplit.
        destruct (Ascii.eqb_spec g a) as [?|_]; [done|]. simpl in Hsplit.
        assert (Hy : (if contains answer g then
                        f <~ getitem fa (index_of_letter g) ;;
                        if count g (take (S k) guess) <=? f then
                          gr0 <~ getitem gr (index_of_letter g) ;;
                          Ok (gr0 <=? f - count g (take (S k) guess))
                        else Ok false
                      else Ok false)
                     = Ok (nongreen_upto guess answer g k
                           <=? count g answer - green_total guess answer g)).
        { rewrite contains_count. rewrite Hup.
          destruct (Z.leb_spec 1 (count g answer)) as [H1|H1].
          - assert (Hgl : lower g).
            { apply count_pos_elem in H1.
              by apply (proj1 (Forall_forall _ _) Hlow). }
            rewrite (tallied_getitem _ _ _ Hfa Hgl). simpl.
            destruct (Z.leb_spec (count g (take (S k) guess)) (count g answer)) as [H2|H2].
            + rewrite (tallied_getitem _ _ _ Hgr Hgl). simpl. f_equal.
              destruct (Z.leb_spec
                (green_total guess answer g - greens g (take k (zip guess answer)))
                (count g answer - count g (take (S k) guess)));
              destruct (Z.leb_spec (nongreens g (take k (zip guess answer)) + 1)
                (count g answer - green_total guess answer g)); try reflexivity; lia.
            + f_equal. symmetry. apply Z.leb_gt. lia.
          - f_equal. symmetry. apply Z.leb_gt. lia. }
        rewrite Hy. simpl.
        destruct (nongreen_upto guess answer g k
                  <=? count g answer - green_total guess answer g) eqn:Ey.
        -- eexists. split; [reflexivity|]. simpl.
           destruct (Hnew "y"%char sq) as [? ?].
           { unfold spec_color. destruct (Ascii.eqb_spec g a); [done|]. by rewrite Ey. }
           split; [done|]. split; [done|].
           apply (tallied_ext _ _ _ Hgr). intros i Hi.
           rewrite (take_S_r _ _ _ Hz), greens_snoc.
           destruct (Ascii.eqb_spec g a) as [?|_]; [done|].
           by rewrite andb_false_r, Z.add_0_r.
        -- eexists. split; [reflexivity|]. simpl.
           destruct (Hnew "b"%char sq) as [? ?].
           { unfold spec_color. destruct (Ascii.eqb_spec g a); [done|]. by rewrite Ey. }
           split; [done|]. split; [done|].
           apply (tallied_ext _ _ _ Hgr). intros i Hi.
           rewrite (take_S_r _ _ _ Hz), greens_snoc.
           destruct (Ascii.eqb_spec g a) as [?|_]; [done|].
           by rewrite andb_false_r, Z.add_0_r.
    + intros [sq gr] -> (Hl & Hcol & _). simpl in *.
      exists sq. split; [done|]. split; [done|].
      intros j g a Hg Ha. apply Hcol; [|done|done]. by eapply lookup_lt_Some.
Qed.

(** Decide the integer comparisons of the goal and finish by arithmetic. *)
Ltac zbool :=
  repeat match goal with
         | |- context [?a <? ?b] => destruct (Z.ltb_spec a b)
         | |- context [?a <=? ?b] => destruct (Z.leb_spec a b)
         end;
  simpl; try reflexivity; try lia.

(** What [generate_array] counts on a check string that follows the rule:
    all the green tiles of the letter, and as many of its other tiles as the
    answer has copies left; a tile is black exactly when there are more. *)
Lemma marked_blacked_of_rule (guess answer check : str) (c : ascii) :
  length guess = length answer -> length check = length guess ->
  (forall j g a, guess !! j = Some g -> answer !! j = Some a ->
     check !! j = Some (spec_color guess answer j g a)) ->
  marked c guess check
  = green_total guess answer c
    + Z.min (nongreens c (zip guess answer))
            (count c answer - green_total guess answer c) /\
  blacked c guess check
  = (count c answer - green_total guess answer c <? nongreens c (zip guess answer)).
Proof.
  intros Hlen Hlc Hrule.
  set (B := count c answer - green_total guess answer c).
  assert (HB : 0 <= B).
  { pose proof (green_total_le_count guess answer c ltac:(lia)). lia. }
  assert (G : forall k, (k <= length guess)%nat ->
            tally (fun p => (Ascii.eqb (snd p) "g" || Ascii.eqb (snd p) "y")
                            && Ascii.eqb (fst p) c) (take k (zip guess check))
            = greens c (take k (zip guess answer))
              + Z.min (nongreens c (take k (zip guess answer))) B /\
            existsb (fun p => Ascii.eqb (snd p) "b" && Ascii.eqb (fst p) c)
                    (take k (zip guess check))
            = (B <? nongreens c (take k (zip guess answer)))).
  { induction k as [|k IH]; intros Hk.
    - rewrite !take_0. unfold greens, nongreens. simpl. split; [lia|].
      symmetry. apply Z.ltb_ge. lia.
    - destruct IH as [IH1 IH2]; [lia|].
      destruct (lookup_lt_is_Some_2 guess k) as [g Hg]; [lia|].
      destruct (lookup_lt_is_Some_2 answer k) as [a Ha]; [lia|].
      pose proof (Hrule k g a Hg Ha) as Hc.
      pose proof (zip_lookup _ _ _ _ _ Hg Ha) as Hz.
      pose proof (zip_lookup _ _ _ _ _ Hg Hc) as Hz'.
      pose proof (tally_nonneg
        (fun p => Ascii.eqb (fst p) c && negb (Ascii.eqb (fst p) (snd p)))
        (take k (zip guess answer))) as HN0.
      fold (nongreens c (take k (zip guess answer))) in HN0.
      rewrite (take_S_r _ _ _ Hz'), tally_snoc, existsb_app, IH1, IH2.
      unfold spec_color, nongreen_upto.
      rewrite (take_S_r _ _ _ Hz), greens_snoc, !nongreens_snoc. simpl.
      destruct (Ascii.eqb_spec g c) as [->|Hne]; simpl.
      + rewrite Ascii.eqb_refl. simpl.
        destruct (Ascii.eqb_spec c a) as [->|Hca]; simpl.
        * rewrite orb_false_r, !Z.add_0_r. split; [lia | done].
        * fold B.
          destruct (Z.leb_spec (nongreens c (take k (zip guess answer)) + 1) B);
            simpl; rewrite ?orb_false_r, ?orb_true_r.
          -- split; [lia | zbool].
          -- split; [lia | zbool].
      + rewrite !andb_false_r, orb_false_r, !Z.add_0_r. by split. }
  destruct (G (length guess) ltac:(lia)) as [G1 G2].
  rewrite !take_ge in G1 by (rewrite length_zip_with; lia).
  rewrite !take_ge in G2 by (rewrite length_zip_with; lia).
  by split.
Qed.

Lemma count_split (guess answer : str) (c : ascii) :
  length guess = length answer ->
  count c guess = green_total guess answer c + nongreens c (zip guess answer).
Proof.
  intros Hlen. pose proof (count_take_split guess answer c (length guess) ltac:(lia)) as H.
  rewrite take_ge in H by lia.
  rewrite take_ge in H by (rewrite length_zip_with; lia). done.
Qed.

Lemma nongreen_upto_mono (guess answer : str) (c : ascii) (j j' : nat) :
  (j <= j')%nat -> nongreen_upto guess answer c j <= nongreen_upto guess answer c j'.
Proof.
  intros Hj. unfold nongreen_upto, nongreens.
  replace (take (S j) (zip guess answer))
    with (take (S j) (take (S j') (zip guess answer))).
  - apply tally_take_le.
  - rewrite take_take. f_equal. lia.
Qed.

(** ** The three checks of [valid_guess] *)

Lemma is_incorrect_position_true (word : str) (arr : array) :
  word5 word -> shape arr ->
  is_incorrect_position word arr = Ok true <-> no_excluded_letter word arr.
Proof.
  intros [Hlen Hlow] Hs. unfold is_incorrect_position, no_excluded_letter.
  rewrite for_all_true, Forall_range.
  assert (Hstep : forall j c, word !! j = Some c ->
    exists v, cell arr (row_of c) j = Some v /\
      (c0 <~ getitem word (Z.of_nat j) ;;
       x <~ getitem2 arr (index_of_letter c0) (Z.of_nat j) ;;
       if eq_str x "b" then Ok false
       else y <~ getitem2 arr (index_of_letter c0) (Z.of_nat j) ;;
            if eq_str y "y" then Ok false else Ok true)
      = if eq_str v "b" then Ok false else if eq_str v "y" then Ok false else Ok true).
  { intros j c Hc. pose proof (lookup_lt_Some _ _ _ Hc) as Hj.
    assert (Hcl : lower c) by (by apply (Forall_lookup_1 _ _ _ _ Hlow Hc)).
    destruct (index_of_letter_row c Hcl) as [Hidx Hr].
    destruct (getitem2_shape arr (row_of c) (Z.of_nat j) j Hs Hr) as [v [Hv Hg]].
    { apply py_index_nat. lia. }
    exists v. split; [done|].
    rewrite (getitem_nat _ _ _ Hc). simpl. rewrite Hidx, Hg. simpl.
    by destruct (eq_str v "b"). }
  split.
  - intros H j c Hc. destruct (Hstep j c Hc) as [v [Hv E]].
    specialize (H j (lookup_lt_Some _ _ _ Hc)). rewrite E in H.
    exists v. split; [done|].
    destruct (eq_str v "b"), (eq_str v "y"); done.
  - intros H j Hj. destruct (lookup_lt_is_Some_2 word j Hj) as [c Hc].
    destruct (Hstep j c Hc) as [v [Hv E]]. rewrite E.
    destruct (H j c Hc) as [v' [Hv' [Hb Hy]]].
    rewrite Hv in Hv'. inversion Hv'; subst. by rewrite Hb, Hy.
Qed.

Lemma is_correct_position_true (word : str) (arr : array) :
  word5 word -> shape arr ->
  is_correct_position word arr = Ok true <-> greens_respected word arr.
Proof.
  intros [Hlen Hlow] Hs. unfold is_correct_position, greens_respected.
  rewrite for_all_true, Forall_range.
  assert (Hstep : forall j c k, word !! j = Some c -> (k < 26)%nat ->
    exists v, cell arr k j = Some v /\
      (x <~ getitem2 arr (Z.of_nat k) (Z.of_nat j) ;;
       if eq_str x "g" && negb (index_of_letter c =? Z.of_nat k)
       then Ok false else Ok true)
      = Ok (negb (eq_str v "g" && negb (bool_decide (k = row_of c))))).
  { intros j c k Hc Hk. pose proof (lookup_lt_Some _ _ _ Hc) as Hj.
    assert (Hcl : lower c) by (by apply (Forall_lookup_1 _ _ _ _ Hlow Hc)).
    destruct (index_of_letter_row c Hcl) as [Hidx Hr].
    destruct (getitem2_shape arr k (Z.of_nat j) j Hs Hk) as [v [Hv Hg]].
    { apply py_index_nat. lia. }
    exists v. split; [done|]. rewrite Hg. simpl. rewrite Hidx.
    destruct (eq_str v "g"); simpl; [|done].
    destruct (Z.eqb_spec (Z.of_nat (row_of c)) (Z.of_nat k)) as [He|He]; simpl.
    - rewrite bool_decide_eq_true_2 by lia. done.
    - rewrite bool_decide_eq_false_2 by lia. done. }
  assert (Hlen' : length arr = 26%nat) by (by destruct Hs).
  split.
  - intros H j c k Hc Hk. destruct (Hstep j c k Hc Hk) as [v [Hv E]].
    specialize (H j (lookup_lt_Some _ _ _ Hc)).
    rewrite (getitem_nat _ _ _ Hc) in H. simpl in H.
    rewrite for_all_true, Forall_range, Hlen' in H.
    specialize (H k Hk). rewrite E in H.
    exists v. split; [done|]. intros Hgv. rewrite Hgv in H. simpl in H.
    case_bool_decide; [done | discriminate].
  - intros H j Hj. destruct (lookup_lt_is_Some_2 word j Hj) as [c Hc].
    rewrite (getitem_nat _ _ _ Hc). simpl.
    rewrite for_all_true, Forall_range, Hlen'. intros k Hk.
    destruct (Hstep j c k Hc Hk) as [v [Hv E]]. rewrite E.
    destruct (H j c k Hc Hk) as [v' [Hv' Hg]].
    rewrite Hv in Hv'. inversion Hv'; subst.
    destruct (eq_str v' "g"); simpl; [|done].
    by rewrite bool_decide_eq_true_2 by auto.
Qed.

Lemma letter_missing_row (k : nat) (word : str) :
  (k < 26)%nat -> letter_missing (Z.of_nat k) word = negb (contains word (letter_of k)).
Proof.
  intros Hk. unfold letter_missing. change (nat_of_ascii "a") with 97%nat.
  destruct (Z.ltb_spec (Z.of_nat k + Z.of_nat 97) 256); [|lia].
  unfold letter_of. do 3 f_equal. lia.
Qed.

Lemma is_correct_letter_frequencies_true (word : str) (arr : array) :
  word5 word -> shape arr ->
  is_correct_letter_frequencies word arr = Ok true <-> frequencies_respected word arr.
Proof.
  intros [Hlen Hlow] Hs. unfold is_correct_letter_frequencies, frequencies_respected.
  assert (Hlen' : length arr = 26%nat) by (by destruct Hs).
  assert (Hstep1 : forall j c, word !! j = Some c ->
    exists lf ex, cell arr (row_of c) 5 = Some lf /\ cell arr (row_of c) 6 = Some ex /\
      (c0 <~ getitem word (Z.of_nat j) ;;
       letter_frequency <~ getitem2 arr (index_of_letter c0) (-2) ;;
       is_exactly_count <~ getitem2 arr (index_of_letter c0) (-1) ;;
       if truthy is_exactly_count then
         if ne_int letter_frequency (count c0 word) then Ok false else Ok true
       else
         gt <~ gt_int letter_frequency (count c0 word) ;;
         if gt then Ok false else Ok true)
      = if truthy ex then Ok (negb (ne_int lf (count c word)))
        else gt <~ gt_int lf (count c word) ;; Ok (negb gt)).
  { intros j c Hc.
    assert (Hcl : lower c) by (by apply (Forall_lookup_1 _ _ _ _ Hlow Hc)).
    destruct (index_of_letter_row c Hcl) as [Hidx Hr].
    destruct (getitem2_shape arr (row_of c) (-2) 5 Hs Hr) as [lf [Hlf Hg1]]; [done|].
    destruct (getitem2_shape arr (row_of c) (-1) 6 Hs Hr) as [ex [Hex Hg2]]; [done|].
    exists lf, ex. split; [done|]. split; [done|].
    rewrite (getitem_nat _ _ _ Hc). simpl. rewrite Hidx, Hg1. simpl. rewrite Hg2. simpl.
    destruct (truthy ex).
    - by destruct (ne_int lf (count c word)).
    - destruct (gt_int lf (count c word)) as [[|]|]; done. }
  assert (Hok1 : forall lf ex n,
    (if truthy ex then Ok (negb (ne_int lf n))
     else gt <~ gt_int lf n ;; Ok (negb gt)) = Ok true <-> freq_ok lf ex n).
  { intros lf ex n. unfold freq_ok, gt_int. destruct (truthy ex).
    - destruct (ne_int lf n); simpl; split; intros; congruence.
    - destruct (as_number lf) as [z|e]; simpl.
      + split.
        * intros H. exists z. split; [done|].
          destruct (Z.ltb_spec n z); simpl in H; [discriminate | lia].
        * intros [z' [Hz' Hle]]. inversion Hz'; subst.
          destruct (Z.ltb_spec n z'); simpl; [lia | done].
      + split; [discriminate | intros [z [Hz _]]; discriminate]. }
  assert (Hstep2 : forall k, (k < 26)%nat ->
    exists x, cell arr k 5 = Some x /\
      (x0 <~ getitem2 arr (Z.of_nat k) (-2) ;;
       ge <~ ge_int x0 1 ;;
       if ge then if letter_missing (Z.of_nat k) word then Ok false else Ok true
       else Ok true)
      = (z <~ as_number x ;;
         Ok (negb ((1 <=? z) && negb (contains word (letter_of k)))))).
  { intros k Hk.
    destruct (getitem2_shape arr k (-2) 5 Hs Hk) as [x [Hx Hg]]; [done|].
    exists x. split; [done|]. rewrite Hg. simpl. unfold ge_int.
    destruct (as_number x) as [z|e]; simpl; [|done].
    rewrite letter_missing_row by done.
    destruct (1 <=? z); simpl; [|done]. by destruct (contains word (letter_of k)). }
  split.
  - intros H.
    destruct (for_all (range (length word)) _) as [[|]|] eqn:E1; simpl in H;
      try discriminate.
    rewrite for_all_true, Forall_range in E1.
    rewrite for_all_true, Forall_range, Hlen' in H. split.
    + intros j c Hc. destruct (Hstep1 j c Hc) as (lf & ex & Hlf & Hex & E).
      specialize (E1 j (lookup_lt_Some _ _ _ Hc)). cbv zeta in E1.
      rewrite E in E1. exists lf, ex. split; [done|]. split; [done|].
      by apply Hok1.
    + intros k Hk. destruct (Hstep2 k Hk) as (x & Hx & E).
      specialize (H k Hk). rewrite E in H.
      destruct (as_number x) as [z|e] eqn:Ez; simpl in H; [|discriminate].
      exists x, z. split; [done|]. split; [done|]. intros Hz.
      destruct (Z.leb_spec 1 z); [|lia]. simpl in H.
      unfold contains in H. case_bool_decide; [done | discriminate].
  - intros [H1 H2].
    match goal with
    | |- bind (for_all ?xs ?test) _ = _ =>
        assert (E1 : for_all xs test = Ok true)
    end.
    { rewrite for_all_true, Forall_range. intros j Hj.
      destruct (lookup_lt_is_Some_2 word j Hj) as [c Hc].
      destruct (Hstep1 j c Hc) as (lf & ex & Hlf & Hex & E). cbv zeta. rewrite E.
      destruct (H1 j c Hc) as (lf' & ex' & Hlf' & Hex' & Hok).
      rewrite Hlf in Hlf'. rewrite Hex in Hex'. inversion Hlf'. inversion Hex'. subst.
      by apply Hok1. }
    rewrite E1. simpl. rewrite for_all_true, Forall_range, Hlen'. intros k Hk.
    destruct (Hstep2 k Hk) as (x & Hx & E). rewrite E.
    destruct (H2 k Hk) as (x' & z & Hx' & Hz & Hin).
    rewrite Hx in Hx'. inversion Hx'; subst. rewrite Hz. simpl.
    destruct (Z.leb_spec 1 z); simpl; [|done].
    unfold contains. by rewrite bool_decide_eq_true_2 by auto.
Qed.

Lemma valid_guess_true (word : str) (arr : array) :
  word5 word -> shape arr ->
  valid_guess word arr = Ok true <->
  no_excluded_letter word arr /\ greens_respected word arr /\
  frequencies_respected word arr.
Proof.
  intros Hw Hs. unfold valid_guess, py_and.
  rewrite <- (is_incorrect_position_true word arr Hw Hs).
  rewrite <- (is_correct_position_true word arr Hw Hs).
  rewrite <- (is_correct_letter_frequencies_true word arr Hw Hs).
  destruct (is_incorrect_position word arr) as [[|]|]; simpl;
    [| split; [discriminate | intros [? _]; discriminate] .. ].
  destruct (is_correct_position word arr) as [[|]|]; simpl;
    [| split; [discriminate | intros (_ & ? & _); discriminate] .. ].
  tauto.
Qed.

(** ** Soundness of the array built from true feedback *)

Lemma cell_new_array (i j : nat) :
  (i < 26)%nat -> (j < 7)%nat -> cell new_array i j = Some (PInt 0).
Proof.
  intros Hi Hj. unfold cell, new_array.
  rewrite lookup_replicate_2 by done. by apply (lookup_replicate_2 7).
Qed.

Lemma consistent_new_array (answer : str) : consistent answer new_array.
Proof.
  split; [apply shape_new_array|]. intros i Hi. split.
  - intros j Hj. exists (PInt 0). rewrite cell_new_array by lia.
    split; [done|]. split; [discriminate | intros [?|?]; discriminate].
  - exists 0, (PInt 0). rewrite !cell_new_array by lia.
    split; [done|]. split; [done|]. split; [apply tally_nonneg | discriminate].
Qed.

Lemma consistent_valid (answer : str) (arr : array) :
  word5 answer -> consistent answer arr -> valid_guess answer arr = Ok true.
Proof.
  intros Hw [Hs Hc]. apply (valid_guess_true answer arr Hw Hs).
  destruct Hw as [Hlen Hlow].
  assert (Hpos : forall j c, answer !! j = Some c ->
            (j < 5)%nat /\ lower c /\ (row_of c < 26)%nat /\ letter_of (row_of c) = c).
  { intros j c Hj. pose proof (lookup_lt_Some _ _ _ Hj).
    assert (lower c) by (by apply (Forall_lookup_1 _ _ _ _ Hlow Hj)).
    destruct (index_of_letter_row c) as [_ ?]; [done|].
    split; [lia|]. split; [done|]. split; [done | by apply letter_of_row]. }
  split; [|split; [|split]].
  - intros j c Hj. destruct (Hpos j c Hj) as (Hj5 & Hcl & Hr & Hlr).
    destruct (Hc _ Hr) as [Hcells _]. destruct (Hcells j Hj5) as (v & Hv & _ & Hby).
    exists v. split; [done|]. rewrite Hlr in Hby.
    destruct (eq_str v "b") eqn:Eb; [exfalso; apply Hby; auto|].
    destruct (eq_str v "y") eqn:Ey; [exfalso; apply Hby; auto|]. done.
  - intros j c k Hj Hk. destruct (Hpos j c Hj) as (Hj5 & Hcl & Hr & Hlr).
    destruct (Hc _ Hk) as [Hcells _]. destruct (Hcells j Hj5) as (v & Hv & Hg & _).
    exists v. split; [done|]. intros Hgv. specialize (Hg Hgv).
    rewrite Hj in Hg. inversion Hg; subst. by rewrite row_of_letter.
  - intros j c Hj. destruct (Hpos j c Hj) as (Hj5 & Hcl & Hr & Hlr).
    destruct (Hc _ Hr) as [_ (m & e & Hm & He & Hle & Hex)].
    rewrite Hlr in Hle, Hex.
    exists (PInt m), e. split; [done|]. split; [done|]. unfold freq_ok.
    destruct (truthy e).
    + simpl. rewrite Hex by done. by rewrite Z.eqb_refl.
    + by exists m.
  - intros k Hk. destruct (Hc _ Hk) as [_ (m & e & Hm & He & Hle & Hex)].
    exists (PInt m), m. split; [done|]. split; [done|].
    intros H1. apply count_pos_elem. lia.
Qed.

Lemma spec_color_green (guess answer : str) (j : nat) (g a : ascii) :
  Ascii.eqb (spec_color guess answer j g a) "g" = Ascii.eqb g a.
Proof.
  unfold spec_color. destruct (Ascii.eqb g a); [done|].
  by destruct (_ <=? _).
Qed.

Lemma spec_color_not_green (guess answer : str) (j : nat) (g a : ascii) :
  Ascii.eqb (spec_color guess answer j g a) "b" = true \/
  Ascii.eqb (spec_color guess answer j g a) "y" = true -> g <> a.
Proof.
  unfold spec_color. destruct (Ascii.eqb_spec g a); [|done].
  simpl. intros [?|?]; discriminate.
Qed.

Lemma consistent_update (answer guess check : str) (arr arr' : array) :
  word5 answer -> word5 guess -> consistent answer arr ->
  compute_wordle_information guess answer = Ok check ->
  generate_array guess check arr = Ok arr' ->
  consistent answer arr'.
Proof.
  intros [Hla Hlowa] Hg [Hs Hc] Hcheck Hgen.
  pose proof Hg as [Hlg Hlowg].
  destruct (feedback_rule guess answer) as (check' & E & Hlc & Hrule); [lia | done |].
  rewrite Hcheck in E. inversion E; subst check'. clear E.
  destruct (generate_array_stored guess check arr Hg ltac:(lia) Hs)
    as (arr2 & E & Hs' & H1 & H2 & H3).
  rewrite Hgen in E. inversion E; subst arr2. clear E.
  split; [done|]. intros i Hi. destruct (Hc i Hi) as [Hcells Hcount]. split.
  - intros j Hj. rewrite (H1 i j Hi Hj). case_bool_decide as Hd; [|by apply Hcells].
    destruct Hd as [_ Hgj].
    destruct (lookup_lt_is_Some_2 answer j) as [a Ha]; [lia|].
    rewrite (Hrule j _ a Hgj Ha). cbn [fmap option_fmap option_map].
    eexists. split; [reflexivity|]. unfold eq_str. split.
    + rewrite spec_color_green. intros ->%Ascii.eqb_eq. done.
    + intros Hby%spec_color_not_green. rewrite Ha. congruence.
  - rewrite (H2 i Hi), (H3 i Hi). rewrite (take_ge guess 5) by lia.
    case_bool_decide as Hd; [|done].
    destruct (marked_blacked_of_rule guess answer check (letter_of i)) as [Hm Hb];
      [lia | done | done |].
    pose proof (green_total_le_count guess answer (letter_of i) ltac:(lia)) as HGF.
    pose proof (tally_nonneg
      (fun p => Ascii.eqb (fst p) (letter_of i) && negb (Ascii.eqb (fst p) (snd p)))
      (zip guess answer)) as HN0.
    fold (nongreens (letter_of i) (zip guess answer)) in HN0.
    eexists _, _. split; [reflexivity|]. split; [reflexivity|]. split.
    + rewrite Hm. lia.
    + simpl. rewrite Hb, Hm. intros Hlt%Z.ltb_lt. lia.
Qed.

Lemma feed_consistent (answer : str) (guesses : list str) (arr : array) :
  word5 answer -> Forall word5 guesses -> consistent answer arr ->
  exists arr', feed answer guesses arr = Ok arr' /\ consistent answer arr'.
Proof.
  intros Ha Hgs. revert arr. induction Hgs as [|guess rest Hg _ IH]; intros arr Hc.
  - by exists arr.
  - simpl. destruct Ha as [Hla Hlowa]. destruct (Hg) as [Hlg Hlowg].
    destruct (feedback_rule guess answer) as (check & E & Hlc & _); [lia | done |].
    destruct Hc as [Hs Hc].
    destruct (generate_array_stored guess check arr Hg ltac:(lia) Hs)
      as (arr1 & E1 & _ & _).
    rewrite E. simpl. rewrite E1. simpl. apply IH.
    by apply (consistent_update answer guess check arr arr1).
Qed.

Lemma lowerb_true (c : ascii) : lowerb c = true -> lower c.
Proof.
  unfold lowerb, lower. intros [H1 H2]%andb_true_iff.
  apply Nat.leb_le in H1, H2. lia.
Qed.

Lemma word5b_true (w : str) : word5b w = true -> word5 w.
Proof.
  unfold word5b, word5. intros [Hl Hf]%andb_true_iff. split.
  - by apply Nat.eqb_eq.
  - apply Forall_forall. intros c Hc.
    rewrite forallb_forall in Hf. specialize (Hf c).
    unfold lowerb in Hf. rewrite andb_true_iff in Hf.
    destruct Hf as [H1 H2]; [by apply list_elem_of_In|].
    apply Nat.leb_le in H1, H2. unfold lower. lia.
Qed.

(** ** No subscript out of range *)

Lemma in_bounds_bind {A B : Type} (m : result A) (k : A -> result B) :
  in_bounds m -> (forall a, m = Ok a -> in_bounds (k a)) -> in_bounds (bind m k).
Proof.
  unfold in_bounds. intros Hm Hk. destruct m as [a|e]; simpl.
  - by apply Hk.
  - intros H. apply Hm. inversion H. reflexivity.
Qed.

Lemma in_bounds_Ok {A : Type} (a : A) : in_bounds (Ok a).
Proof. discriminate. Qed.

Lemma is_incorrect_position_in_bounds (word : str) (arr : array) :
  word5 word -> shape arr -> in_bounds (is_incorrect_position word arr).
Proof.
  intros [Hlen Hlow] Hs. unfold is_incorrect_position.
  apply for_all_in_bounds, Forall_range. intros j Hj.
  destruct (word_lookup word j Hlow Hj) as [c [Hc Hcl]].
  destruct (index_of_letter_row c Hcl) as [Hidx Hr].
  destruct (getitem2_shape arr (row_of c) (Z.of_nat j) j Hs Hr) as [v [_ Hg]].
  { apply py_index_nat. lia. }
  rewrite (getitem_nat _ _ _ Hc). simpl. rewrite Hidx, Hg. simpl.
  destruct (eq_str v "b"); [apply in_bounds_Ok|].
  destruct (eq_str v "y"); apply in_bounds_Ok.
Qed.

Lemma is_correct_position_in_bounds (word : str) (arr : array) :
  word5 word -> shape arr -> in_bounds (is_correct_position word arr).
Proof.
  intros [Hlen Hlow] Hs. unfold is_correct_position.
  apply for_all_in_bounds, Forall_range. intros j Hj.
  destruct (word_lookup word j Hlow Hj) as [c [Hc Hcl]].
  rewrite (getitem_nat _ _ _ Hc). simpl.
  apply for_all_in_bounds, Forall_range. intros k Hk.
  destruct (getitem2_shape arr k (Z.of_nat j) j Hs) as [v [_ Hg]].
  { destruct Hs. lia. }
  { apply py_index_nat. lia. }
  rewrite Hg. simpl. destruct (_ && _); apply in_bounds_Ok.
Qed.

Lemma is_correct_letter_frequencies_in_bounds (word : str) (arr : array) :
  word5 word -> shape arr -> in_bounds (is_correct_letter_frequencies word arr).
Proof.
  intros [Hlen Hlow] Hs. unfold is_correct_letter_frequencies.
  apply in_bounds_bind.
  - apply for_all_in_bounds, Forall_range. intros j Hj.
    destruct (word_lookup word j Hlow Hj) as [c [Hc Hcl]].
    destruct (index_of_letter_row c Hcl) as [Hidx Hr].
    destruct (getitem2_shape arr (row_of c) (-2) 5 Hs Hr) as [lf [_ Hg1]]; [done|].
    destruct (getitem2_shape arr (row_of c) (-1) 6 Hs Hr) as [ex [_ Hg2]]; [done|].
    rewrite (getitem_nat _ _ _ Hc). simpl. rewrite Hidx, Hg1. simpl. rewrite Hg2. simpl.
    destruct (truthy ex).
    + destruct (ne_int lf (count c word)); apply in_bounds_Ok.
    + unfold gt_int. destruct lf as [z|b|d]; simpl; try discriminate;
        destruct (_ <? _); apply in_bounds_Ok.
  - intros [|] _; [|apply in_bounds_Ok].
    apply for_all_in_bounds, Forall_range. intros k Hk.
    destruct (getitem2_shape arr k (-2) 5 Hs) as [x [_ Hg]]; [destruct Hs; lia | done |].
    rewrite Hg. simpl. unfold ge_int. destruct x as [z|b|d]; simpl; try discriminate;
      destruct (_ <=? _); try apply in_bounds_Ok;
      destruct (letter_missing _ _); apply in_bounds_Ok.
Qed.

Lemma valid_guess_in_bounds (word : str) (arr : array) :
  word5 word -> shape arr -> in_bounds (valid_guess word arr).
Proof.
  intros Hw Hs. unfold valid_guess, py_and.
  apply in_bounds_bind; [by apply is_incorrect_position_in_bounds|].
  intros [|] _; [|apply in_bounds_Ok].
  apply in_bounds_bind; [by apply is_correct_position_in_bounds|].
  intros [|] _; [|apply in_bounds_Ok].
  by apply is_correct_letter_frequencies_in_bounds.
Qed.

(** * The claims *)

(** ** C1: the true answer is never excluded *)

(** C1.  For a five-letter lowercase answer and any sequence of five-letter
    lowercase guesses, start from the all-zero 26x7 array and update it with
    [generate_array(guess, compute_wordle_information(guess, answer), array)]
    for each guess in order: after every update (after the first [n]
    guesses, for every [n]) the updates have raised nothing and
    [valid_guess(answer, array)] returns [True]. *)
Theorem answer_never_excluded (answer : str) (guesses : list str) (n : nat) :
  word5 answer -> Forall word5 guesses ->
  exists arr, feed answer (take n guesses) new_array = Ok arr /\
              valid_guess answer arr = Ok true.
Proof.
  intros Ha Hgs.
  destruct (feed_consistent answer (take n guesses) new_array Ha) as (arr & E & Hc).
  - by apply Forall_take.
  - apply consistent_new_array.
  - exists arr. split; [done|]. by apply consistent_valid.
Qed.

Lemma answer_never_excluded_witness :
  exists arr, feed (s "erase") (take 2 [s "speed"; s "tares"]) new_array = Ok arr /\
              valid_guess (s "erase") arr = Ok true.
Proof.
  apply (answer_never_excluded (s "erase") [s "speed"; s "tares"] 2).
  - apply word5b_true. reflexivity.
  - repeat constructor; apply word5b_true; reflexivity.
Defined.

(** ** C2: the colour of every position *)

(** C2.  For a guess and an answer of the same length, both lowercase,
    [compute_wordle_information] returns a colour per position: ['g'] at
    position [j] exactly when the two letters agree; at a position that is
    not green, ['y'] exactly when the non-green occurrences of the letter
    among guess positions [0..j] do not exceed the answer's count of the
    letter minus the letter's total green count, and ['b'] otherwise.  In
    particular, when the guess has more copies of a letter than the answer,
    exactly the answer's count of them are marked green or yellow, and after
    a black tile of a letter every later non-green tile of it is black. *)
Theorem feedback_colours (guess answer : str) :
  length guess = length answer -> Forall lower guess -> Forall lower answer ->
  exists check,
    compute_wordle_information guess answer = Ok check /\
    length check = length guess /\
    (forall j g a, guess !! j = Some g -> answer !! j = Some a ->
       (check !! j = Some "g"%char <-> g = a) /\
       (g <> a ->
          (check !! j = Some "y"%char <->
           nongreen_upto guess answer g j
           <= count g answer - green_total guess answer g)) /\
       (g <> a ->
          ~ nongreen_upto guess answer g j
            <= count g answer - green_total guess answer g ->
          check !! j = Some "b"%char)) /\
    (forall c, count c answer < count c guess ->
       marked c guess check = count c answer) /\
    (forall c j j', (j < j')%nat -> guess !! j = Some c -> guess !! j' = Some c ->
       answer !! j' <> Some c ->
       check !! j = Some "b"%char -> check !! j' = Some "b"%char).
Proof.
  intros Hlen _ Hlow.
  destruct (feedback_rule guess answer Hlen Hlow) as (check & E & Hlc & Hrule).
  exists check. split; [done|]. split; [done|]. split; [|split].
  - intros j g a Hg Ha. rewrite (Hrule j g a Hg Ha). unfold spec_color.
    destruct (Ascii.eqb_spec g a) as [->|Hne].
    + split; [done|]. split; intros; congruence.
    + destruct (Z.leb_spec (nongreen_upto guess answer g j)
                  (count g answer - green_total guess answer g)).
      * split; [split; intros; congruence|]. split; [|intros; lia].
        intros _. split; [done | reflexivity].
      * split; [split; intros; congruence|]. split; [|reflexivity].
        intros _. split; [discriminate | lia].
  - intros c Hc.
    destruct (marked_blacked_of_rule guess answer check c Hlen Hlc Hrule) as [Hm _].
    rewrite (count_split guess answer c Hlen) in Hc. rewrite Hm. lia.
  - intros c j j' Hjj Hg Hg' Hna Hb.
    destruct (lookup_lt_is_Some_2 answer j) as [a Ha].
    { rewrite <- Hlen. by eapply lookup_lt_Some. }
    destruct (lookup_lt_is_Some_2 answer j') as [a' Ha'].
    { rewrite <- Hlen. by eapply lookup_lt_Some. }
    rewrite (Hrule j c a Hg Ha) in Hb. rewrite (Hrule j' c a' Hg' Ha').
    pose proof (nongreen_upto_mono guess answer c j j' ltac:(lia)) as Hmono.
    unfold spec_color in *.
    destruct (Ascii.eqb_spec c a) as [->|Hne]; [discriminate|].
    destruct (Ascii.eqb_spec c a') as [->|Hne']; [congruence|].
    destruct (Z.leb_spec (nongreen_upto guess answer c j)
                (count c answer - green_total guess answer c)); [discriminate|].
    destruct (Z.leb_spec (nongreen_upto guess answer c j')
                (count c answer - green_total guess answer c)); [lia | done].
Qed.

Lemma feedback_colours_witness :
  exists check,
    compute_wordle_information (s "speed") (s "abide") = Ok check /\
    length check = length (s "speed") /\
    (forall j g a, s "speed" !! j = Some g -> s "abide" !! j = Some a ->
       (check !! j = Some "g"%char <-> g = a) /\
       (g <> a ->
          (check !! j = Some "y"%char <->
           nongreen_upto (s "speed") (s "abide") g j
           <= count g (s "abide") - green_total (s "speed") (s "abide") g)) /\
       (g <> a ->
          ~ nongreen_upto (s "speed") (s "abide") g j
            <= count g (s "abide") - green_total (s "speed") (s "abide") g ->
          check !! j = Some "b"%char)) /\
    (forall c, count c (s "abide") < count c (s "speed") ->
       marked c (s "speed") check = count c (s "abide")) /\
    (forall c j j', (j < j')%nat -> s "speed" !! j = Some c ->
       s "speed" !! j' = Some c -> s "abide" !! j' <> Some c ->
       check !! j = Some "b"%char -> check !! j' = Some "b"%char).
Proof.
  apply (feedback_colours (s "speed") (s "abide")).
  - reflexivity.
  - apply (word5b_true (s "speed")). reflexivity.
  - apply (word5b_true (s "abide")). reflexivity.
Defined.

(** ** C5: "speed" against "erase" *)

(** C5, as the code has it: [compute_wordle_information("speed", "erase")]
    returns ["ybyyb"]: the answer holds an [s] and two [e]s, so [s] and both
    [e]s are yellow, and [p] and [d] are black. *)
Theorem speed_erase_feedback :
  compute_wordle_information (s "speed") (s "erase") = Ok (s "ybyyb").
Proof. vm_compute. reflexivity. Qed.

(** C5, counterexample: the result is not ["bbybb"]. *)
Lemma speed_erase_not_bbybb :
  compute_wordle_information (s "speed") (s "erase") <> Ok (s "bbybb").
Proof. vm_compute. discriminate. Qed.

(** ** C3: the count and the flag are overwritten *)

(** C3, as the code has it.  One call [generate_array(guess, check, array)]
    on a five-letter lowercase guess leaves [array[L][-2]] and [array[L][-1]]
    as they were for every letter [L] that the guess does not contain, and
    for every letter of the guess overwrites them with what
    [compute_letter_freq(L, guess, check)] returns for this guess alone,
    whatever was stored before. *)
Theorem generate_array_overwrites (guess check : str) (arr : array) (c : ascii) :
  word5 guess -> (5 <= length check)%nat -> shape arr -> lower c ->
  exists arr' m e,
    generate_array guess check arr = Ok arr' /\
    compute_letter_freq c guess check = Ok (m, e) /\
    (c ∉ guess ->
       getitem2 arr' (index_of_letter c) (-2) = getitem2 arr (index_of_letter c) (-2) /\
       getitem2 arr' (index_of_letter c) (-1) = getitem2 arr (index_of_letter c) (-1)) /\
    (c ∈ guess ->
       getitem2 arr' (index_of_letter c) (-2) = Ok (PInt m) /\
       getitem2 arr' (index_of_letter c) (-1) = Ok (PBool e)).
Proof.
  intros Hg Hcheck Hs Hc.
  destruct (generate_array_stored guess check arr Hg Hcheck Hs)
    as (arr' & E & Hs' & _ & H2 & H3).
  destruct Hg as [Hlen Hlow].
  destruct (index_of_letter_row c Hc) as [Hidx Hr].
  exists arr', (marked c guess check), (blacked c guess check).
  split; [done|]. split; [apply compute_letter_freq_spec; lia|].
  specialize (H2 _ Hr). specialize (H3 _ Hr).
  rewrite (take_ge guess 5), (letter_of_row c Hc) in H2, H3 by lia.
  destruct (getitem2_shape arr (row_of c) (-2) 5 Hs Hr) as (v5 & Hv5 & G5); [done|].
  destruct (getitem2_shape arr (row_of c) (-1) 6 Hs Hr) as (v6 & Hv6 & G6); [done|].
  destruct (getitem2_shape arr' (row_of c) (-2) 5 Hs' Hr) as (w5 & Hw5 & G5'); [done|].
  destruct (getitem2_shape arr' (row_of c) (-1) 6 Hs' Hr) as (w6 & Hw6 & G6'); [done|].
  rewrite Hidx, G5, G6, G5', G6'. split.
  - intros Hnot. rewrite bool_decide_eq_false_2 in H2, H3 by done.
    split; congruence.
  - intros Hin. rewrite bool_decide_eq_true_2 in H2, H3 by done.
    split; congruence.
Qed.

Lemma generate_array_overwrites_witness :
  exists arr' m e,
    generate_array (s "tares") (s "bybyb") new_array = Ok arr' /\
    compute_letter_freq "e" (s "tares") (s "bybyb") = Ok (m, e) /\
    ("e"%char ∉ s "tares" ->
       getitem2 arr' (index_of_letter "e") (-2)
       = getitem2 new_array (index_of_letter "e") (-2) /\
       getitem2 arr' (index_of_letter "e") (-1)
       = getitem2 new_array (index_of_letter "e") (-1)) /\
    ("e"%char ∈ s "tares" ->
       getitem2 arr' (index_of_letter "e") (-2) = Ok (PInt m) /\
       getitem2 arr' (index_of_letter "e") (-1) = Ok (PBool e)).
Proof.
  apply (generate_array_overwrites (s "tares") (s "bybyb") new_array "e").
  - apply word5b_true. reflexivity.
  - simpl. lia.
  - apply shape_new_array.
  - apply lowerb_true. reflexivity.
Defined.

(** C3, counterexample.  With the answer "abide", the guess "speed" sets the
    flag of [e] (one yellow, one black tile) and the next guess "tares"
    resets it to [False]; with the answer "erase", "speed" stores the count
    2 for [e] with the flag unset and "tares" lowers it to 1; and after
    "eerie" has stored the exact count 2, "tares" changes it to 1. *)
Lemma exact_flag_reverts :
  (exists a1 a2,
     feed (s "abide") [s "speed"] new_array = Ok a1 /\
     feed (s "abide") [s "speed"; s "tares"] new_array = Ok a2 /\
     getitem2 a1 (index_of_letter "e") (-1) = Ok (PBool true) /\
     getitem2 a2 (index_of_letter "e") (-1) = Ok (PBool false)) /\
  (exists a1 a2,
     feed (s "erase") [s "speed"] new_array = Ok a1 /\
     feed (s "erase") [s "speed"; s "tares"] new_array = Ok a2 /\
     getitem2 a1 (index_of_letter "e") (-1) = Ok (PBool false) /\
     getitem2 a1 (index_of_letter "e") (-2) = Ok (PInt 2) /\
     getitem2 a2 (index_of_letter "e") (-2) = Ok (PInt 1)) /\
  (exists a1 a2,
     feed (s "erase") [s "eerie"] new_array = Ok a1 /\
     feed (s "erase") [s "eerie"; s "tares"] new_array = Ok a2 /\
     getitem2 a1 (index_of_letter "e") (-1) = Ok (PBool true) /\
     getitem2 a1 (index_of_letter "e") (-2) = Ok (PInt 2) /\
     getitem2 a2 (index_of_letter "e") (-2) = Ok (PInt 1)).
Proof.
  split; [|split]; eexists; eexists;
    (split; [vm_compute; reflexivity|]);
    (split; [vm_compute; reflexivity|]);
    repeat split; vm_compute; reflexivity.
Qed.

(** ** C4: the candidate set can grow *)

(** C4, counterexample.  With the answer "erase" and the dictionary
    ["arise"]: after the guess "speed" (check "ybyyb") the word "arise" is
    rejected, because two [e]s are asked for; after the further guess
    "tares" (check "byyyy") the count of [e] is overwritten with 1 and
    "arise" is accepted. *)
Lemma candidates_can_grow :
  exists a1 a2,
    generate_array (s "speed") (s "ybyyb") new_array = Ok a1 /\
    generate_array (s "tares") (s "byyyy") a1 = Ok a2 /\
    compute_wordle_information (s "speed") (s "erase") = Ok (s "ybyyb") /\
    compute_wordle_information (s "tares") (s "erase") = Ok (s "byyyy") /\
    valid_guess (s "arise") a1 = Ok false /\
    valid_guess (s "arise") a2 = Ok true /\
    filter_lines [s "arise"] a1 = Ok [] /\
    filter_lines [s "arise"] a2 = Ok [s "arise"].
Proof.
  eexists. eexists.
  split; [vm_compute; reflexivity|].
  split; [vm_compute; reflexivity|].
  repeat split; vm_compute; reflexivity.
Qed.

(** ** C10: subscripts stay in range *)

(** C10, as the code has it.  For five-letter lowercase [word] and [guess],
    a 26x7 [array] and a [check] string of at least five characters: every
    row index computed by [index_of_letter] lies in [0, 26), none of
    [is_incorrect_position], [is_correct_position],
    [is_correct_letter_frequencies] and [valid_guess] raises [IndexError],
    and [generate_array] returns an array that is again 26x7. *)
Theorem subscripts_in_range (word guess check : str) (arr : array) :
  word5 word -> word5 guess -> shape arr -> (5 <= length check)%nat ->
  (forall c, c ∈ word ++ guess -> 0 <= index_of_letter c < 26) /\
  in_bounds (is_incorrect_position word arr) /\
  in_bounds (is_correct_position word arr) /\
  in_bounds (is_correct_letter_frequencies word arr) /\
  in_bounds (valid_guess word arr) /\
  (exists arr', generate_array guess check arr = Ok arr' /\ shape arr').
Proof.
  intros Hw Hg Hs Hc. split; [|split; [|split; [|split; [|split]]]].
  - intros c Hin. assert (Hl : lower c).
    { apply elem_of_app in Hin as [Hin|Hin].
      - destruct Hw as [_ Hlow]. by apply (proj1 (Forall_forall _ _) Hlow).
      - destruct Hg as [_ Hlow]. by apply (proj1 (Forall_forall _ _) Hlow). }
    destruct (index_of_letter_row c Hl) as [-> ?]. lia.
  - by apply is_incorrect_position_in_bounds.
  - by apply is_correct_position_in_bounds.
  - by apply is_correct_letter_frequencies_in_bounds.
  - by apply valid_guess_in_bounds.
  - destruct (generate_array_stored guess check arr Hg Hc Hs) as (arr' & E & Hs' & _).
    by exists arr'.
Qed.

Lemma subscripts_in_range_witness :
  (forall c, c ∈ s "arise" ++ s "tares" -> 0 <= index_of_letter c < 26) /\
  in_bounds (is_incorrect_position (s "arise") new_array) /\
  in_bounds (is_correct_position (s "arise") new_array) /\
  in_bounds (is_correct_letter_frequencies (s "arise") new_array) /\
  in_bounds (valid_guess (s "arise") new_array) /\
  (exists arr', generate_array (s "tares") (s "byyyy") new_array = Ok arr' /\ shape arr').
Proof.
  apply (subscripts_in_range (s "arise") (s "tares") (s "byyyy") new_array).
  - apply word5b_true. reflexivity.
  - apply word5b_true. reflexivity.
  - apply shape_new_array.
  - simpl. lia.
Defined.

(** C10, counterexample.  The guess is five lowercase letters and the array
    is the fresh 26x7 array, but the check string is shorter than the guess:
    [check[2]] is out of range and [generate_array] raises [IndexError]. *)
Lemma short_check_out_of_range :
  word5 (s "tares") /\ shape new_array /\
  generate_array (s "tares") (s "gg") new_array = Raise IndexError.
Proof.
  split; [apply word5b_true; reflexivity|].
  split; [apply shape_new_array|]. vm_compute. reflexivity.
Qed.

(** * Further properties of the code *)

(** ** The feedback rule: all green, and the count of marked tiles *)

Lemma feedback_all_green (guess answer : str) :
  length guess = length answer -> Forall lower answer ->
  compute_wordle_information guess answer = Ok (replicate (length guess) "g"%char)
  <-> guess = answer.
Proof.
  intros Hlen Hlow.
  destruct (feedback_rule guess answer Hlen Hlow) as (check & E & Hlc & Hrule).
  rewrite E. split.
  - intros Heq. inversion Heq as [Hc]. clear Heq.
    apply (list_eq_same_length _ _ (length guess)); [done | done |].
    intros j g a Hj Hg Ha. pose proof (Hrule j g a Hg Ha) as Hcol.
    rewrite Hc, lookup_replicate_2 in Hcol by done.
    inversion Hcol as [Hsc]. symmetry in Hsc.
    apply Ascii.eqb_eq. rewrite <- (spec_color_green guess answer j g a), Hsc.
    reflexivity.
  - intros <-. f_equal.
    apply (list_eq_same_length _ _ (length guess));
      [by rewrite length_replicate | done |].
    intros j x y Hj Hx Hy.
    destruct (lookup_lt_is_Some_2 guess j Hj) as [g Hg].
    rewrite (Hrule j g g Hg Hg) in Hx. rewrite lookup_replicate_2 in Hy by done.
    inversion Hx. inversion Hy. subst. unfold spec_color.
    by rewrite Ascii.eqb_refl.
Qed.

(** For five-letter lowercase words the check string is "ggggg" exactly when
    the guess is the answer. *)
Theorem all_green_iff_solved (guess answer : str) :
  word5 guess -> word5 answer ->
  compute_wordle_information guess answer = Ok all_green <-> guess = answer.
Proof.
  intros [Hlg _] [Hla Hlowa].
  rewrite <- (feedback_all_green guess answer) by (done || lia).
  rewrite Hlg. reflexivity.
Qed.

Lemma all_green_iff_solved_witness :
  compute_wordle_information (s "slate") (s "slate") = Ok all_green
  <-> s "slate" = s "slate".
Proof.
  apply (all_green_iff_solved (s "slate") (s "slate"));
    apply word5b_true; reflexivity.
Defined.

(** On the check string of a guess against an answer, [compute_letter_freq]
    counts, for any letter, the smaller of its number of copies in the guess
    and in the answer, and reports an exact count precisely when the guess
    has more copies than the answer. *)
Theorem letter_freq_is_min (guess answer : str) (c : ascii) :
  length guess = length answer -> Forall lower answer ->
  exists check,
    compute_wordle_information guess answer = Ok check /\
    compute_letter_freq c guess check
    = Ok (Z.min (count c guess) (count c answer), count c answer <? count c guess).
Proof.
  intros Hlen Hlow.
  destruct (feedback_rule guess answer Hlen Hlow) as (check & E & Hlc & Hrule).
  exists check. split; [done|].
  rewrite compute_letter_freq_spec by lia.
  destruct (marked_blacked_of_rule guess answer check c Hlen Hlc Hrule) as [Hm Hb].
  pose proof (count_split guess answer c Hlen) as Hsplit.
  pose proof (green_total_le_count guess answer c ltac:(lia)) as HGF.
  pose proof (tally_nonneg
    (fun p => Ascii.eqb (fst p) c && negb (Ascii.eqb (fst p) (snd p)))
    (zip guess answer)) as HN0.
  fold (nongreens c (zip guess answer)) in HN0.
  rewrite Hm, Hb, Hsplit. f_equal. f_equal; [lia | zbool].
Qed.

Lemma letter_freq_is_min_witness :
  exists check,
    compute_wordle_information (s "speed") (s "abide") = Ok check /\
    compute_letter_freq "e" (s "speed") check
    = Ok (Z.min (count "e" (s "speed")) (count "e" (s "abide")),
          count "e" (s "abide") <? count "e" (s "speed")).
Proof.
  apply (letter_freq_is_min (s "speed") (s "abide") "e").
  - reflexivity.
  - apply (word5b_true (s "abide")). reflexivity.
Defined.

(** ** [generate_array]: what it writes and what it leaves alone *)

Lemma array_ext (a b : array) :
  shape a -> shape b ->
  (forall i j, (i < 26)%nat -> (j < 7)%nat -> cell a i j = cell b i j) ->
  a = b.
Proof.
  intros [Hla Hra] [Hlb Hrb] Hcells.
  apply (list_eq_same_length _ _ 26); [done | done |].
  intros i ra rb Hi Ha Hb.
  pose proof (Forall_lookup_1 _ _ _ _ Hra Ha) as Hlra.
  pose proof (Forall_lookup_1 _ _ _ _ Hrb Hb) as Hlrb.
  apply (list_eq_same_length _ _ 7); [done | done |].
  intros j x y Hj Hx Hy. specialize (Hcells i j Hi Hj).
  unfold cell in Hcells. rewrite Ha, Hb in Hcells. simpl in Hcells.
  rewrite Hx, Hy in Hcells. by inversion Hcells.
Qed.

(** Updating twice with the same guess and check string changes nothing
    more than updating once. *)
Theorem generate_array_idempotent (guess check : str) (arr : array) :
  word5 guess -> (5 <= length check)%nat -> shape arr ->
  exists arr', generate_array guess check arr = Ok arr' /\
               generate_array guess check arr' = Ok arr'.
Proof.
  intros Hg Hc Hs.
  destruct (generate_array_stored guess check arr Hg Hc Hs)
    as (a1 & E1 & Hs1 & H1 & H2 & H3).
  destruct (generate_array_stored guess check a1 Hg Hc Hs1)
    as (a2 & E2 & Hs2 & K1 & K2 & K3).
  exists a1. split; [done|]. rewrite E2. f_equal.
  apply array_ext; [done | done |]. intros i j Hi Hj.
  destruct (decide (j < 5)%nat) as [Hj5|Hj5].
  - rewrite (K1 i j Hi Hj5), (H1 i j Hi Hj5). by case_bool_decide.
  - destruct (decide (j = 5%nat)) as [->|Hne].
    + rewrite (K2 i Hi), (H2 i Hi). by case_bool_decide.
    + replace j with 6%nat by lia.
      rewrite (K3 i Hi), (H3 i Hi). by case_bool_decide.
Qed.

Lemma generate_array_idempotent_witness :
  exists arr', generate_array (s "tares") (s "bybyb") new_array = Ok arr' /\
               generate_array (s "tares") (s "bybyb") arr' = Ok arr'.
Proof.
  apply (generate_array_idempotent (s "tares") (s "bybyb") new_array).
  - apply word5b_true. reflexivity.
  - simpl. lia.
  - apply shape_new_array.
Defined.

(** Of the five position cells of a letter's row, [generate_array] writes
    exactly those at which the guess holds the letter, with the character of
    the check string at that position; every other position cell, in every
    row, keeps its content. *)
Theorem generate_array_position_cells (guess check : str) (arr : array)
  (c : ascii) (j : nat) :
  word5 guess -> (5 <= length check)%nat -> shape arr -> lower c -> (j < 5)%nat ->
  exists arr' x,
    generate_array guess check arr = Ok arr' /\
    check !! j = Some x /\
    (guess !! j = Some c ->
       getitem2 arr' (index_of_letter c) (Z.of_nat j) = Ok (PStr x)) /\
    (guess !! j <> Some c ->
       getitem2 arr' (index_of_letter c) (Z.of_nat j)
       = getitem2 arr (index_of_letter c) (Z.of_nat j)).
Proof.
  intros Hg Hc Hs Hcl Hj.
  destruct (generate_array_stored guess check arr Hg Hc Hs)
    as (arr' & E & Hs' & H1 & _ & _).
  destruct (lookup_lt_is_Some_2 check j) as [x Hx]; [lia|].
  destruct (index_of_letter_row c Hcl) as [Hidx Hr].
  exists arr', x. split; [done|]. split; [done|].
  specialize (H1 _ j Hr Hj). rewrite (letter_of_row c Hcl), Hx in H1.
  destruct (getitem2_shape arr (row_of c) (Z.of_nat j) j Hs Hr) as (v & Hv & G).
  { apply py_index_nat. lia. }
  destruct (getitem2_shape arr' (row_of c) (Z.of_nat j) j Hs' Hr) as (v' & Hv' & G').
  { apply py_index_nat. lia. }
  rewrite Hidx, G, G'. split.
  - intros Hgj. rewrite bool_decide_eq_true_2 in H1 by done.
    rewrite Hv' in H1. simpl in H1. congruence.
  - intros Hgj. rewrite bool_decide_eq_false_2 in H1 by tauto. congruence.
Qed.

Lemma generate_array_position_cells_witness :
  exists arr' x,
    generate_array (s "tares") (s "bybyb") new_array = Ok arr' /\
    s "bybyb" !! 1%nat = Some x /\
    (s "tares" !! 1%nat = Some "a"%char ->
       getitem2 arr' (index_of_letter "a") (Z.of_nat 1) = Ok (PStr x)) /\
    (s "tares" !! 1%nat <> Some "a"%char ->
       getitem2 arr' (index_of_letter "a") (Z.of_nat 1)
       = getitem2 new_array (index_of_letter "a") (Z.of_nat 1)).
Proof.
  apply (generate_array_position_cells (s "tares") (s "bybyb") new_array "a" 1).
  - apply word5b_true. reflexivity.
  - simpl. lia.
  - apply shape_new_array.
  - apply lowerb_true. reflexivity.
  - lia.
Defined.

(** Against the fresh array every five-letter lowercase word is valid. *)
Theorem fresh_array_accepts (word : str) :
  word5 word -> valid_guess word new_array = Ok true.
Proof.
  intros Hw. apply consistent_valid; [done|]. apply consistent_new_array.
Qed.

Lemma fresh_array_accepts_witness : valid_guess (s "tares") new_array = Ok true.
Proof. apply (fresh_array_accepts (s "tares")). apply word5b_true. reflexivity. Defined.

(** ** Inputs of the wrong length *)

Lemma range_split (k n : nat) :
  (k <= n)%nat -> range n = range k ++ map Z.of_nat (seq k (n - k)).
Proof.
  intros Hk. unfold range. rewrite <- map_app, <- seq_app.
  do 2 f_equal. lia.
Qed.

(** The rule for a [range] loop that stops with an exception: the passes
    before [k] keep the invariant and pass [k] raises. *)
Lemma for_each_range_raise {S : Type} (I : nat -> S -> Prop) (n k : nat)
  (body : Z -> S -> result S) (st : S) (e : exn) :
  (k < n)%nat ->
  I 0%nat st ->
  (forall j st1, (j < k)%nat -> I j st1 ->
     exists st2, body (Z.of_nat j) st1 = Ok st2 /\ I (Datatypes.S j) st2) ->
  (forall st1, I k st1 -> body (Z.of_nat k) st1 = Raise e) ->
  for_each (range n) body st = Raise e.
Proof.
  intros Hk H0 Hstep Hfail.
  destruct (for_each_range_inv I k body st H0 Hstep) as (st1 & E & HI).
  rewrite (range_split k n) by lia. rewrite for_each_app, E. simpl.
  replace (n - k)%nat with (Datatypes.S (n - k - 1)) by lia. simpl.
  by rewrite (Hfail st1 HI).
Qed.

Lemma compute_letter_freq_short_check (letter : ascii) (guess check : str) :
  (length check < length guess)%nat ->
  compute_letter_freq letter guess check = Raise IndexError.
Proof.
  intros Hlen. unfold compute_letter_freq.
  apply (for_each_range_raise (fun _ _ => True) _ (length check)); [done | done | |].
  - intros j [cnt ex] Hj _.
    destruct (lookup_lt_is_Some_2 check j Hj) as [c Hc].
    destruct (lookup_lt_is_Some_2 guess j) as [g Hg]; [lia|].
    rewrite (getitem_nat _ _ _ Hc), (getitem_nat _ _ _ Hg). simpl.
    destruct (Ascii.eqb c "g"); simpl.
    + destruct (Ascii.eqb c "b"); simpl; eauto.
    + destruct (Ascii.eqb c "y"); simpl; destruct (Ascii.eqb c "b"); simpl; eauto.
  - intros [cnt ex] _. by rewrite getitem_out.
Qed.

(** A check string shorter than the guess makes [compute_letter_freq] raise
    [IndexError], and with it [generate_array] on any non-empty guess,
    whatever the array. *)
Theorem short_check_raises (letter : ascii) (guess check : str) (arr : array) :
  (length check < length guess)%nat ->
  compute_letter_freq letter guess check = Raise IndexError /\
  generate_array guess check arr = Raise IndexError.
Proof.
  intros Hlen. split; [by apply compute_letter_freq_short_check|].
  unfold generate_array. destruct guess as [|g rest]; [simpl in Hlen; lia|].
  change (range (length (g :: rest)))
    with (Z.of_nat 0 :: map Z.of_nat (seq 1 (length rest))).
  cbn [for_each]. rewrite (getitem_nat (g :: rest) 0 g) by done.
  simpl. by rewrite compute_letter_freq_short_check.
Qed.

Lemma short_check_raises_witness :
  compute_letter_freq "t" (s "tares") (s "gg") = Raise IndexError /\
  generate_array (s "tares") (s "gg") new_array = Raise IndexError.
Proof.
  apply (short_check_raises "t" (s "tares") (s "gg") new_array). simpl. lia.
Defined.

Lemma iadd_length (l : list Z) (c : ascii) (d : Z) :
  length l = 26%nat -> lower c ->
  exists l', iadd l (index_of_letter c) d = Ok l' /\ length l' = 26%nat.
Proof.
  intros Hl Hc. destruct (index_of_letter_row c Hc) as [Hidx Hr].
  destruct (lookup_lt_is_Some_2 l (row_of c)) as [x Hx]; [lia|].
  exists (<[row_of c := x + d]> l). split; [|by rewrite length_insert].
  unfold iadd. rewrite Hidx, (getitem_nat _ _ _ Hx). simpl.
  apply setitem_nat. lia.
Qed.

(** A guess and a lowercase answer of different lengths make
    [compute_wordle_information] raise [IndexError]. *)
Theorem feedback_length_mismatch (guess answer : str) :
  Forall lower answer -> length guess <> length answer ->
  compute_wordle_information guess answer = Raise IndexError.
Proof.
  intros Hlow Hne. unfold compute_wordle_information.
  assert (Hstep1 : forall j (st1 : list Z * list Z),
    (j < length answer)%nat -> (j < length guess)%nat ->
    length (fst st1) = 26%nat /\ length (snd st1) = 26%nat ->
    exists st2,
      (let '(fa, ga) := st1 in
       a <~ getitem answer (Z.of_nat j) ;;
       fa' <~ iadd fa (index_of_letter a) 1 ;;
       g <~ getitem guess (Z.of_nat j) ;;
       a' <~ getitem answer (Z.of_nat j) ;;
       if Ascii.eqb g a' then ga' <~ iadd ga (index_of_letter a) 1 ;; Ok (fa', ga')
       else Ok (fa', ga)) = Ok st2 /\
      length (fst st2) = 26%nat /\ length (snd st2) = 26%nat).
  { intros j [fa ga] Hja Hjg [Hfa Hga]. simpl in Hfa, Hga.
    destruct (word_lookup answer j Hlow Hja) as [a [Ha Hal]].
    destruct (lookup_lt_is_Some_2 guess j Hjg) as [g Hg].
    destruct (iadd_length fa a 1 Hfa Hal) as (fa' & E1 & Hfa').
    rewrite (getitem_nat _ _ _ Ha). simpl. rewrite E1. simpl.
    rewrite (getitem_nat _ _ _ Hg). simpl.
    destruct (Ascii.eqb g a).
    - destruct (iadd_length ga a 1 Hga Hal) as (ga' & E2 & Hga').
      rewrite E2. simpl. eauto.
    - eauto. }
  destruct (decide (length guess < length answer)%nat) as [Hlt|Hge].
  - (* the first loop runs out of guess letters *)
    rewrite (for_each_range_raise
      (fun _ (st : list Z * list Z) =>
         length (fst st) = 26%nat /\ length (snd st) = 26%nat)
      (length answer) (length guess) _ _ IndexError); [done | done | | |].
    + split; reflexivity.
    + intros j st1 Hj HI. apply Hstep1; [lia | done | done].
    + intros [fa ga] [Hfa Hga]. simpl in Hfa, Hga.
      destruct (word_lookup answer (length guess) Hlow Hlt) as [a [Ha Hal]].
      destruct (iadd_length fa a 1 Hfa Hal) as (fa' & E1 & Hfa').
      rewrite (getitem_nat _ _ _ Ha). simpl. rewrite E1. simpl.
      by rewrite getitem_out.
  - (* the second loop runs out of answer letters *)
    range_loop (fun (_ : nat) (st : list Z * list Z) =>
      length (fst st) = 26%nat /\ length (snd st) = 26%nat).
    + split; reflexivity.
    + intros j st1 Hj HI. apply Hstep1; [done | lia | done].
    + intros [fa ga] -> [Hfa Hga]. simpl in Hfa, Hga. simpl.
      rewrite (for_each_range_raise
        (fun _ (st : list ascii * list Z) => length (snd st) = 26%nat)
        (length guess) (length answer) _ _ IndexError); [done | lia | done | |].
      * intros j [sq gr] Hj Hgr. simpl in Hgr.
        destruct (word_lookup answer j Hlow Hj) as [a [Ha Hal]].
        destruct (lookup_lt_is_Some_2 guess j) as [g Hg]; [lia|].
        rewrite (getitem_nat _ _ _ Hg). simpl. rewrite (getitem_nat _ _ _ Ha). simpl.
        destruct (Ascii.eqb_spec g a) as [->|Hga'].
        -- destruct (iadd_length gr a (-1) Hgr Hal) as (gr' & E2 & Hgr').
           rewrite E2. simpl. eauto.
        -- rewrite contains_count.
           destruct (Z.leb_spec 1 (count g answer)) as [H1|H1].
           ++ assert (Hgl : lower g).
              { apply count_pos_elem in H1.
                by apply (proj1 (Forall_forall _ _) Hlow). }
              destruct (index_of_letter_row g Hgl) as [Hidx Hr].
              destruct (lookup_lt_is_Some_2 fa (row_of g)) as [f Hf]; [lia|].
              destruct (lookup_lt_is_Some_2 gr (row_of g)) as [x Hx]; [lia|].
              rewrite Hidx, (getitem_nat _ _ _ Hf). simpl.
              destruct (_ <=? f); simpl.
              ** rewrite (getitem_nat _ _ _ Hx). simpl.
                 destruct (_ <=? _); simpl; eauto.
              ** eauto.
           ++ simpl. eauto.
      * intros [sq gr] Hgr.
        destruct (lookup_lt_is_Some_2 guess (length answer)) as [g Hg]; [lia|].
        rewrite (getitem_nat _ _ _ Hg). simpl. by rewrite getitem_out.
Qed.

Lemma feedback_length_mismatch_witness :
  compute_wordle_information (s "tare") (s "slate") = Raise IndexError.
Proof.
  apply (feedback_length_mismatch (s "tare") (s "slate")).
  - apply (word5b_true (s "slate")). reflexivity.
  - simpl. lia.
Defined.

(** ** The filter over the word list *)

Lemma cell_shape (arr : array) (i j : nat) :
  shape arr -> (i < 26)%nat -> (j < 7)%nat -> exists v, cell arr i j = Some v.
Proof.
  intros Hs Hi Hj. destruct (getitem2_shape arr i (Z.of_nat j) j Hs Hi) as (v & Hv & _).
  - by apply py_index_nat.
  - by exists v.
Qed.

Lemma typed_new_array : typed new_array.
Proof.
  split; [apply shape_new_array|]. intros i Hi.
  exists (PInt 0), 0. by rewrite cell_new_array by lia.
Qed.

Lemma generate_array_typed (guess check : str) (arr : array) :
  word5 guess -> (5 <= length check)%nat -> typed arr ->
  exists arr', generate_array guess check arr = Ok arr' /\ typed arr'.
Proof.
  intros Hg Hc [Hs Ht].
  destruct (generate_array_stored guess check arr Hg Hc Hs)
    as (arr' & E & Hs' & _ & H2 & _).
  exists arr'. split; [done|]. split; [done|]. intros i Hi.
  rewrite (H2 i Hi). case_bool_decide; [|by apply Ht].
  by exists (PInt (marked (letter_of i) guess check)), (marked (letter_of i) guess check).
Qed.

Lemma valid_guess_total (word : str) (arr : array) :
  word5 word -> typed arr -> exists b, valid_guess word arr = Ok b.
Proof.
  intros [Hlen Hlow] [Hs Ht].
  assert (Hlen' : length arr = 26%nat) by (by destruct Hs).
  assert (T1 : exists b, is_incorrect_position word arr = Ok b).
  { unfold is_incorrect_position. apply for_all_total, Forall_range. intros j Hj.
    destruct (word_lookup word j Hlow Hj) as [c [Hc Hcl]].
    destruct (index_of_letter_row c Hcl) as [Hidx Hr].
    destruct (getitem2_shape arr (row_of c) (Z.of_nat j) j Hs Hr) as [v [_ Hg]].
    { apply py_index_nat. lia. }
    rewrite (getitem_nat _ _ _ Hc). simpl. rewrite Hidx, Hg. simpl.
    destruct (eq_str v "b"); [by eexists|]. destruct (eq_str v "y"); by eexists. }
  assert (T2 : exists b, is_correct_position word arr = Ok b).
  { unfold is_correct_position. apply for_all_total, Forall_range. intros j Hj.
    destruct (word_lookup word j Hlow Hj) as [c [Hc Hcl]].
    rewrite (getitem_nat _ _ _ Hc). simpl.
    apply for_all_total, Forall_range. intros k Hk.
    destruct (getitem2_shape arr k (Z.of_nat j) j Hs) as [v [_ Hg]]; [lia | |].
    { apply py_index_nat. lia. }
    rewrite Hg. simpl. destruct (_ && _); by eexists. }
  assert (T3 : exists b, is_correct_letter_frequencies word arr = Ok b).
  { unfold is_correct_letter_frequencies.
    match goal with
    | |- exists b, bind (for_all ?xs ?test) _ = _ =>
        assert (E1 : exists b1, for_all xs test = Ok b1)
    end.
    { apply for_all_total, Forall_range. intros j Hj.
      destruct (word_lookup word j Hlow Hj) as [c [Hc Hcl]].
      destruct (index_of_letter_row c Hcl) as [Hidx Hr].
      destruct (Ht _ Hr) as (lf & z & Hlf & Hz).
      destruct (getitem2_shape arr (row_of c) (-2) 5 Hs Hr) as [lf' [Hlf' Hg1]]; [done|].
      destruct (getitem2_shape arr (row_of c) (-1) 6 Hs Hr) as [ex [_ Hg2]]; [done|].
      rewrite Hlf in Hlf'. inversion Hlf'; subst lf'.
      rewrite (getitem_nat _ _ _ Hc). simpl. rewrite Hidx, Hg1. simpl. rewrite Hg2. simpl.
      destruct (truthy ex).
      - destruct (ne_int lf (count c word)); by eexists.
      - unfold gt_int. rewrite Hz. simpl. destruct (_ <? _); by eexists. }
    destruct E1 as [b1 E1]. rewrite E1. simpl. destruct b1; [|by eexists].
    apply for_all_total, Forall_range. rewrite Hlen'. intros k Hk.
    destruct (Ht _ Hk) as (x & z & Hx & Hz).
    destruct (getitem2_shape arr k (-2) 5 Hs Hk) as [x' [Hx' Hg]]; [done|].
    rewrite Hx in Hx'. inversion Hx'; subst x'.
    rewrite Hg. simpl. unfold ge_int. rewrite Hz. simpl.
    destruct (_ <=? _); [|by eexists].
    destruct (letter_missing _ _); by eexists. }
  destruct T1 as [b1 E1], T2 as [b2 E2], T3 as [b3 E3].
  unfold valid_guess, py_and. rewrite E1. simpl.
  destruct b1; [|by eexists]. rewrite E2. simpl.
  destruct b2; [|by eexists]. by eexists.
Qed.

(** On an array whose count column holds numbers, the filtering loop keeps
    exactly the words for which [valid_guess] returns [True], in the order
    of the word list, and raises nothing. *)
Theorem filter_lines_keeps_valid (lines : list str) (arr : array) :
  Forall word5 lines -> typed arr ->
  filter_lines lines arr = Ok (List.filter (accepts arr) lines).
Proof.
  intros Hl Ht. unfold filter_lines.
  range_loop (fun (k : nat) (pg : list str) =>
    pg = List.filter (accepts arr) (take k lines)).
  - by rewrite take_0.
  - intros j pg Hj ->.
    destruct (lookup_lt_is_Some_2 lines j Hj) as [w Hw].
    pose proof (Forall_lookup_1 _ _ _ _ Hl Hw) as Hw5.
    destruct (valid_guess_total w arr Hw5 Ht) as [b Hb].
    rewrite (getitem_nat _ _ _ Hw). simpl. rewrite Hb. simpl.
    assert (Ha : accepts arr w = b).
    { unfold accepts. rewrite Hb. by destruct b. }
    rewrite (take_S_r _ _ _ Hw), List.filter_app. simpl. rewrite Ha.
    destruct b; eexists; (split; [reflexivity|]); [done | by rewrite app_nil_r].
  - intros pg -> ->. by rewrite take_ge.
Qed.

Lemma filter_lines_keeps_valid_witness :
  filter_lines [s "arise"; s "tares"] new_array
  = Ok (List.filter (accepts new_array) [s "arise"; s "tares"]).
Proof.
  apply (filter_lines_keeps_valid [s "arise"; s "tares"] new_array).
  - repeat constructor; apply word5b_true; reflexivity.
  - apply typed_new_array.
Defined.

(** ** When an update can only narrow the candidates *)

Lemma ne_int_number (lf : pyval) (z n : Z) :
  as_number lf = Ok z -> ne_int lf n = negb (z =? n).
Proof. destruct lf as [x|b|c]; simpl; intros H; inversion H; reflexivity. Qed.

Lemma keeps_information_fresh (guess check : str) :
  word5 guess -> keeps_information guess check new_array.
Proof.
  intros [Hlen Hlow]. split.
  - intros j c x v Hg Hx Hv.
    pose proof (lookup_lt_Some _ _ _ Hg) as Hj.
    assert (Hcl : lower c) by (by apply (Forall_lookup_1 _ _ _ _ Hlow Hg)).
    destruct (index_of_letter_row c Hcl) as [_ Hr].
    rewrite cell_new_array in Hv by lia. inversion Hv; subst.
    split; [discriminate | intros [?|?]; discriminate].
  - intros c Hin.
    assert (Hcl : lower c) by (by apply (proj1 (Forall_forall _ _) Hlow)).
    destruct (index_of_letter_row c Hcl) as [_ Hr].
    exists (PInt 0), (PInt 0), 0. rewrite !cell_new_array by lia.
    split; [done|]. split; [done|]. split; [done|]. left.
    split; [done | apply tally_nonneg].
Qed.

(** If the update with [guess] and [check] loses nothing the array holds,
    every word that [valid_guess] accepts after [generate_array] was
    accepted before it: the update can only narrow the candidates. *)
Theorem update_only_narrows (guess check word : str) (arr : array) :
  word5 guess -> word5 word -> (5 <= length check)%nat -> shape arr ->
  keeps_information guess check arr ->
  exists arr', generate_array guess check arr = Ok arr' /\
    (valid_guess word arr' = Ok true -> valid_guess word arr = Ok true).
Proof.
  intros Hg Hw Hc Hs [P1 P2].
  destruct (generate_array_stored guess check arr Hg Hc Hs)
    as (arr' & E & Hs' & H1 & H2 & H3).
  exists arr'. split; [done|].
  rewrite (valid_guess_true word arr' Hw Hs'), (valid_guess_true word arr Hw Hs).
  destruct Hg as [Hlg Hlowg]. pose proof Hw as [Hlw Hloww].
  assert (Hpos : forall j c, word !! j = Some c ->
            (j < 5)%nat /\ lower c /\ (row_of c < 26)%nat).
  { intros j c Hj. pose proof (lookup_lt_Some _ _ _ Hj).
    assert (lower c) by (by apply (Forall_lookup_1 _ _ _ _ Hloww Hj)).
    destruct (index_of_letter_row c) as [_ ?]; [done|].
    split; [lia|]. by split. }
  assert (Hcount : forall k, (k < 26)%nat -> letter_of k ∈ guess ->
            exists lf ex z,
              cell arr k 5 = Some lf /\ cell arr k 6 = Some ex /\
              as_number lf = Ok z /\
              ((truthy ex = false /\ z <= marked (letter_of k) guess check) \/
               (truthy ex = true /\ blacked (letter_of k) guess check = true /\
                z = marked (letter_of k) guess check))).
  { intros k Hk Hin. specialize (P2 _ Hin). by rewrite row_of_letter in P2. }
  rewrite (take_ge guess 5) in H2, H3 by lia.
  intros (N' & G' & F1' & F2'). split; [|split; [|split]].
  - intros j c Hj. destruct (Hpos j c Hj) as (Hj5 & Hcl & Hr).
    destruct (N' j c Hj) as (v' & Hv' & Hb' & Hy').
    rewrite (H1 _ j Hr Hj5), (letter_of_row c Hcl) in Hv'.
    case_bool_decide as Hd; [|by exists v'].
    destruct Hd as [_ Hgj].
    destruct (lookup_lt_is_Some_2 check j) as [x Hx]; [lia|].
    rewrite Hx in Hv'. simpl in Hv'. inversion Hv'; subst v'. simpl in Hb', Hy'.
    destruct (cell_shape arr (row_of c) j Hs Hr ltac:(lia)) as [v Hv].
    exists v. split; [done|].
    destruct (P1 j c x v Hgj Hx Hv) as [_ Hby].
    destruct (eq_str v "b") eqn:Eb.
    { destruct Hby as [->| ->]; [by left | discriminate | discriminate]. }
    destruct (eq_str v "y") eqn:Ey; [|done].
    destruct Hby as [->| ->]; [by right | discriminate | discriminate].
  - intros j c k Hj Hk. destruct (Hpos j c Hj) as (Hj5 & Hcl & Hr).
    destruct (G' j c k Hj Hk) as (v' & Hv' & Hg').
    rewrite (H1 k j Hk Hj5) in Hv'.
    case_bool_decide as Hd; [|by exists v'].
    destruct Hd as [_ Hgj].
    destruct (lookup_lt_is_Some_2 check j) as [x Hx]; [lia|].
    rewrite Hx in Hv'. simpl in Hv'. inversion Hv'; subst v'.
    destruct (cell_shape arr k j Hs Hk ltac:(lia)) as [v Hv].
    exists v. split; [done|]. intros Hgv. apply Hg'.
    pose proof (P1 j (letter_of k) x v Hgj Hx) as P.
    rewrite row_of_letter in P by done.
    destruct (P Hv) as [-> _]; done.
  - intros j c Hj. destruct (Hpos j c Hj) as (Hj5 & Hcl & Hr).
    destruct (F1' j c Hj) as (lf' & ex' & Hlf' & Hex' & Hok).
    rewrite (H2 _ Hr), (letter_of_row c Hcl) in Hlf'.
    rewrite (H3 _ Hr), (letter_of_row c Hcl) in Hex'.
    case_bool_decide as Hd; [|by exists lf', ex'].
    inversion Hlf'; subst lf'. inversion Hex'; subst ex'.
    pose proof (Hcount (row_of c) Hr) as Hold.
    rewrite (letter_of_row c Hcl) in Hold.
    destruct (Hold Hd) as (lf & ex & z & Hlf & Hex & Hz & Hcase).
    exists lf, ex. split; [done|]. split; [done|].
    unfold freq_ok in *. simpl in Hok.
    destruct Hcase as [[Hf Hle] | (Ht & Hbl & Heq)].
    + rewrite Hf. exists z. split; [done|].
      destruct (blacked c guess check).
      * apply negb_false_iff, Z.eqb_eq in Hok. lia.
      * destruct Hok as (z' & Hz' & Hle'). inversion Hz'. lia.
    + rewrite Ht. rewrite Hbl in Hok.
      rewrite (ne_int_number lf z _ Hz). rewrite Heq. exact Hok.
  - intros k Hk. destruct (F2' k Hk) as (x' & z' & Hx' & Hz' & Hin').
    rewrite (H2 k Hk) in Hx'.
    case_bool_decide as Hd; [|by exists x', z'].
    inversion Hx'; subst x'. simpl in Hz'. inversion Hz'; subst z'.
    destruct (Hcount k Hk Hd) as (lf & ex & z & Hlf & Hex & Hz & Hcase).
    exists lf, z. split; [done|]. split; [done|]. intros H1z. apply Hin'.
    destruct Hcase as [[_ Hle] | (_ & _ & Heq)]; lia.
Qed.

Lemma shape_after_tares : shape after_tares.
Proof. split; [reflexivity|]. repeat constructor. Qed.

Lemma keeps_information_after_tares :
  keeps_information (s "speed") (s "ybyyb") after_tares.
Proof.
  split.
  - intros j c x v Hg Hx Hv.
    destruct j as [|[|[|[|[|j]]]]]; simpl in Hg; try discriminate;
      inversion Hg; subst c; simpl in Hx; inversion Hx; subst x;
      vm_compute in Hv; inversion Hv; subst v;
      (split; [discriminate | intros [?|?]; (discriminate || auto)]).
  - intros c Hin.
    repeat (apply elem_of_cons in Hin as [->|Hin]);
      [ exists (PInt 1), (PBool false), 1
      | exists (PInt 0), (PInt 0), 0
      | exists (PInt 1), (PBool false), 1
      | exists (PInt 1), (PBool false), 1
      | exists (PInt 0), (PInt 0), 0
      | by apply elem_of_nil in Hin ];
      (split; [reflexivity|]); (split; [reflexivity|]); (split; [reflexivity|]);
      left; (split; [reflexivity|]); vm_compute; discriminate.
Qed.

Lemma update_only_narrows_witness :
  exists arr', generate_array (s "speed") (s "ybyyb") after_tares = Ok arr' /\
    (valid_guess (s "erase") arr' = Ok true ->
     valid_guess (s "erase") after_tares = Ok true).
Proof.
  apply (update_only_narrows (s "speed") (s "ybyyb") (s "erase") after_tares).
  - apply word5b_true. reflexivity.
  - apply word5b_true. reflexivity.
  - simpl. lia.
  - apply shape_after_tares.
  - apply keeps_information_after_tares.
Defined.

(** ** After the first guess the filter is exact *)

Lemma green_pattern_tallies (guess w1 w2 : str) (P : ascii -> bool -> bool) (k : nat) :
  length w1 = length guess -> length w2 = length guess ->
  (forall j g x y, guess !! j = Some g -> w1 !! j = Some x -> w2 !! j = Some y ->
     Ascii.eqb g x = Ascii.eqb g y) ->
  tally (fun p => P (fst p) (Ascii.eqb (fst p) (snd p))) (take k (zip guess w1))
  = tally (fun p => P (fst p) (Ascii.eqb (fst p) (snd p))) (take k (zip guess w2)).
Proof.
  intros Hl1 Hl2 Hsame.
  set (f := fun p : ascii * ascii => (fst p, Ascii.eqb (fst p) (snd p))).
  assert (Hmap : f <$> zip guess w1 = f <$> zip guess w2).
  { apply (list_eq_same_length _ _ (length guess)).
    - rewrite length_fmap, length_zip_with. lia.
    - rewrite length_fmap, length_zip_with. lia.
    - intros j p q Hj Hp Hq. rewrite list_lookup_fmap in Hp, Hq.
      destruct (zip guess w1 !! j) as [[g x]|] eqn:E1; [|discriminate].
      destruct (zip guess w2 !! j) as [[g' y]|] eqn:E2; [|discriminate].
      apply lookup_zip_with_Some in E1 as (? & ? & Heq1 & Hg1 & Hx).
      apply lookup_zip_with_Some in E2 as (? & ? & Heq2 & Hg2 & Hy).
      inversion Heq1; inversion Heq2; subst.
      rewrite Hg1 in Hg2. inversion Hg2; subst.
      simpl in Hp, Hq. inversion Hp; inversion Hq; subst. unfold f. simpl.
      f_equal. by eapply Hsame. }
  change (tally (fun p => P (fst (f p)) (snd (f p))) (take k (zip guess w1))
          = tally (fun p => P (fst (f p)) (snd (f p))) (take k (zip guess w2))).
  rewrite <- !(tally_fmap f (fun q => P (fst q) (snd q))).
  by rewrite !fmap_take, Hmap.
Qed.

(** After one guess on the fresh array, [valid_guess] accepts exactly the
    words that would have produced the same check string: the first round of
    filtering keeps every word consistent with the feedback and no other. *)
Theorem first_filter_exact (guess answer word : str) :
  word5 guess -> word5 answer -> word5 word ->
  exists check arr,
    compute_wordle_information guess answer = Ok check /\
    generate_array guess check new_array = Ok arr /\
    (valid_guess word arr = Ok true <->
     compute_wordle_information guess word = Ok check).
Proof.
  intros Hg Ha Hw.
  pose proof Hg as [Hlg Hlowg]. pose proof Ha as [Hla Hlowa].
  pose proof Hw as [Hlw Hloww].
  destruct (feedback_rule guess answer) as (check & Ec & Hlc & Hrule); [lia | done |].
  destruct (generate_array_stored guess check new_array Hg ltac:(lia) shape_new_array)
    as (arr & Ea & Hs & H1 & H2 & H3).
  rewrite (take_ge guess 5) in H2, H3 by lia.
  exists check, arr. split; [done|]. split; [done|]. split.
  - intros Hvalid.
    apply (valid_guess_true word arr Hw Hs) in Hvalid as (N & G & F1 & F2).
    destruct (feedback_rule guess word) as (check' & Ec' & Hlc' & Hrule'); [lia | done |].
    rewrite Ec'. f_equal.
    (* the cell written at position [j] of the guess *)
    assert (Hcell : forall j g a, guess !! j = Some g -> answer !! j = Some a ->
              lower g /\ (row_of g < 26)%nat /\
              cell arr (row_of g) j = Some (PStr (spec_color guess answer j g a))).
    { intros j g a Hgj Haj. pose proof (lookup_lt_Some _ _ _ Hgj) as Hj.
      assert (Hgl : lower g) by (by apply (Forall_lookup_1 _ _ _ _ Hlowg Hgj)).
      destruct (index_of_letter_row g Hgl) as [_ Hr].
      split; [done|]. split; [done|].
      rewrite (H1 _ j Hr ltac:(lia)), (letter_of_row g Hgl).
      rewrite bool_decide_eq_true_2 by (split; [lia | done]).
      by rewrite (Hrule j g a Hgj Haj). }
    (* the same positions are green for the word and for the answer *)
    assert (Hgreen : forall j g x y, guess !! j = Some g -> word !! j = Some x ->
              answer !! j = Some y -> Ascii.eqb g x = Ascii.eqb g y).
    { intros j g x y Hgj Hxj Hyj.
      destruct (Hcell j g y Hgj Hyj) as (Hgl & Hr & Hc).
      assert (Hxl : lower x) by (by apply (Forall_lookup_1 _ _ _ _ Hloww Hxj)).
      destruct (Ascii.eqb_spec g y) as [->|Hne].
      - destruct (G j x (row_of y) Hxj Hr) as (v & Hv & Hgv).
        rewrite Hc in Hv. inversion Hv; subst v.
        apply Ascii.eqb_eq. apply row_of_inj; [done | done |]. apply Hgv.
        simpl. rewrite spec_color_green. apply Ascii.eqb_refl.
      - destruct (Ascii.eqb_spec g x) as [->|]; [|done]. exfalso.
        destruct (N j x Hxj) as (v & Hv & Hb & Hy).
        rewrite Hc in Hv. inversion Hv; subst v. simpl in Hb, Hy.
        unfold spec_color in Hb, Hy.
        destruct (Ascii.eqb_spec x y); [done|].
        destruct (_ <=? _); discriminate. }
    (* what the two count columns say about the word *)
    assert (Hfreq : forall c, c ∈ guess ->
              marked c guess check <= count c word /\
              (blacked c guess check = true -> count c word = marked c guess check)).
    { intros c Hin.
      assert (Hcl : lower c) by (by apply (proj1 (Forall_forall _ _) Hlowg)).
      destruct (index_of_letter_row c Hcl) as [_ Hr].
      pose proof (H2 _ Hr) as C5. pose proof (H3 _ Hr) as C6.
      rewrite (letter_of_row c Hcl) in C5, C6.
      rewrite bool_decide_eq_true_2 in C5, C6 by done.
      destruct (decide (c ∈ word)) as [Hcw|Hcw].
      - apply list_elem_of_lookup in Hcw as [j Hj].
        destruct (F1 j c Hj) as (lf & ex & Hlf & Hex & Hok).
        rewrite C5 in Hlf. rewrite C6 in Hex. inversion Hlf; inversion Hex; subst.
        unfold freq_ok in Hok. simpl in Hok.
        destruct (blacked c guess check).
        + apply negb_false_iff, Z.eqb_eq in Hok. split; [lia | done].
        + destruct Hok as (z & Hz & Hle). inversion Hz; subst.
          split; [done | discriminate].
      - destruct (F2 _ Hr) as (x & z & Hx & Hz & Hin').
        rewrite C5 in Hx. inversion Hx; subst x. simpl in Hz. inversion Hz; subst z.
        rewrite (letter_of_row c Hcl) in Hin'.
        pose proof (tally_nonneg (fun x => bool_decide (x = c)) word) as Hn.
        fold (count c word) in Hn.
        pose proof (tally_nonneg
          (fun p => (Ascii.eqb (snd p) "g" || Ascii.eqb (snd p) "y")
                    && Ascii.eqb (fst p) c) (zip guess check)) as Hm.
        fold (marked c guess check) in Hm.
        assert (Hc0 : count c word = 0).
        { destruct (Z.le_gt_cases 1 (count c word)) as [H|H]; [|lia].
          apply count_pos_elem in H. contradiction. }
        assert (Hm0 : marked c guess check = 0).
        { destruct (Z.le_gt_cases 1 (marked c guess check)) as [H|H]; [|lia].
          apply Hin' in H. contradiction. }
        lia. }
    apply (list_eq_same_length _ _ 5); [lia | lia |].
    intros j x y Hj Hx Hy.
    destruct (lookup_lt_is_Some_2 guess j) as [g Hgj]; [lia|].
    destruct (lookup_lt_is_Some_2 answer j) as [a Haj]; [lia|].
    destruct (lookup_lt_is_Some_2 word j) as [w Hwj]; [lia|].
    rewrite (Hrule' j g w Hgj Hwj) in Hx. rewrite (Hrule j g a Hgj Haj) in Hy.
    inversion Hx; inversion Hy; subst x y. clear Hx Hy.
    pose proof (Hgreen j g w a Hgj Hwj Haj) as Hgw.
    unfold spec_color. rewrite Hgw.
    destruct (Ascii.eqb g a) eqn:Ega; [done|].
    (* a position that is not green: the same count of earlier tiles ... *)
    assert (HN : nongreen_upto guess word g j = nongreen_upto guess answer g j).
    { unfold nongreen_upto, nongreens.
      apply (green_pattern_tallies guess word answer
               (fun c b => Ascii.eqb c g && negb b)); [lia | lia | done]. }
    assert (HG : green_total guess word g = green_total guess answer g).
    { unfold green_total, greens.
      rewrite <- (take_ge (zip guess word) 5) by (rewrite length_zip_with; lia).
      rewrite <- (take_ge (zip guess answer) 5) by (rewrite length_zip_with; lia).
      apply (green_pattern_tallies guess word answer
               (fun c b => Ascii.eqb c g && b)); [lia | lia | done]. }
    rewrite HN, HG.
    (* ... and a count of copies that decides it the same way *)
    assert (Hin : g ∈ guess) by (apply list_elem_of_lookup; eauto).
    destruct (Hfreq g Hin) as [Hle Hex].
    destruct (marked_blacked_of_rule guess answer check g) as [Hm Hb];
      [lia | done | done |].
    pose proof (green_total_le_count guess answer g ltac:(lia)) as HGF.
    pose proof (tally_take_le
      (fun p => Ascii.eqb (fst p) g && negb (Ascii.eqb (fst p) (snd p)))
      (zip guess answer) (S j)) as Hupto.
    fold (nongreens g (take (S j) (zip guess answer))) in Hupto.
    fold (nongreen_upto guess answer g j) in Hupto.
    fold (nongreens g (zip guess answer)) in Hupto.
    rewrite Hb in Hex. rewrite Hm in Hle, Hex.
    destruct (Z.ltb_spec (count g answer - green_total guess answer g)
                (nongreens g (zip guess answer))) as [Hlt|Hge].
    + specialize (Hex eq_refl). replace (count g word) with (count g answer) by lia.
      reflexivity.
    + clear Hex. zbool.
  - intros Hcheck. apply consistent_valid; [done|].
    apply (consistent_update word guess check new_array arr); try done.
    apply consistent_new_array.
Qed.

Lemma first_filter_exact_witness :
  exists check arr,
    compute_wordle_information (s "tares") (s "slate") = Ok check /\
    generate_array (s "tares") check new_array = Ok arr /\
    (valid_guess (s "arise") arr = Ok true <->
     compute_wordle_information (s "tares") (s "arise") = Ok check).
Proof.
  apply (first_filter_exact (s "tares") (s "slate") (s "arise"));
    apply word5b_true; reflexivity.
Defined.

(** ** The ranking: sorting *)

Section Sorting.
Context {FP : PyFloat} {A : Type} (key : A -> pynum).

Lemma insert_by_key_perm (x : A) (l : list A) :
  insert_by_key key x l ≡ₚ x :: l.
Proof.
  induction l as [|y l IH]; simpl; [done|].
  destruct (num_lt (key y) (key x)); [|done].
  rewrite IH. apply Permutation_swap.
Qed.

Lemma stable_sort_perm (l : list A) : stable_sort key l ≡ₚ l.
Proof.
  induction l as [|x l IH]; simpl; [done|].
  by rewrite insert_by_key_perm, IH.
Qed.

Lemma sorted_reverse_perm (l : list A) : sorted_reverse key l ≡ₚ l.
Proof.
  unfold sorted_reverse. by rewrite reverse_Permutation, stable_sort_perm, reverse_Permutation.
Qed.

(** Keys that [<] never separates are left in place. *)
Lemma stable_sort_ties (l : list A) :
  (forall x y, x ∈ l -> y ∈ l -> num_lt (key x) (key y) = false) ->
  stable_sort key l = l.
Proof.
  induction l as [|x l IH]; intros H; simpl; [done|].
  rewrite IH by (intros; apply H; by right).
  destruct l as [|y l]; simpl; [done|].
  rewrite (H y x); [done | by right; left | by left].
Qed.



(** The order laws on the keys that occur. *)
Variable D : pynum -> Prop.
Hypothesis lt_asym : forall a b, D a -> D b -> num_lt a b = true -> num_lt b a = false.
Hypothesis lt_negtrans :
  forall a b c, D a -> D b -> D c ->
    num_lt a b = false -> num_lt b c = false -> num_lt a c = false.






End Sorting.

(** ** The ranking: buckets of check strings *)

Lemma dict_count_incr (key k : str) (d : list (str * Z)) :
  dict_count (dict_incr key d) k
  = dict_count d k + (if bool_decide (key = k) then 1 else 0).
Proof.
  induction d as [|[k0 v] d IH]; simpl.
  - case_bool_decide; lia.
  - destruct (decide (k0 = key)) as [->|Hne].
    + rewrite bool_decide_eq_true_2 by done. simpl.
      case_bool_decide; lia.
    + rewrite (bool_decide_eq_false_2 (k0 = key)) by done. simpl. rewrite IH.
      destruct (decide (k0 = k)) as [->|Hne'].
      * rewrite bool_decide_eq_true_2 by done.
        rewrite (bool_decide_eq_false_2 (key = k)) by congruence. lia.
      * rewrite (bool_decide_eq_false_2 (k0 = k)) by done. done.
Qed.

Lemma dict_incr_keys (key : str) (d : list (str * Z)) :
  (dict_incr key d).*1 = if bool_decide (key ∈ d.*1) then d.*1 else d.*1 ++ [key].
Proof.
  induction d as [|[k0 v] d IH]; [done|]. csimpl.
  destruct (decide (k0 = key)) as [->|Hne].
  - rewrite bool_decide_eq_true_2 by done. csimpl.
    rewrite bool_decide_eq_true_2; [done | by left].
  - rewrite (bool_decide_eq_false_2 (k0 = key)) by done. csimpl. rewrite IH.
    destruct (decide (key ∈ d.*1)) as [Hin|Hin].
    + rewrite !bool_decide_eq_true_2; [done | by right | done].
    + rewrite !bool_decide_eq_false_2; [done | | done].
      intros [?|?]%elem_of_cons; [congruence | done].
Qed.

Lemma dict_total_incr (key : str) (d : list (str * Z)) :
  dict_total (dict_incr key d) = dict_total d + 1.
Proof.
  induction d as [|[k0 v] d IH]; simpl; [lia|].
  case_bool_decide; simpl; lia.
Qed.

Lemma dict_count_elem (d : list (str * Z)) (k : str) (v : Z) :
  NoDup d.*1 -> (k, v) ∈ d -> dict_count d k = v.
Proof.
  induction d as [|[k0 v0] d IH]; csimpl; intros Hnd Hin.
  - by apply elem_of_nil in Hin.
  - apply NoDup_cons in Hnd as [Hk0 Hnd].
    apply elem_of_cons in Hin as [Heq|Hin].
    + inversion Heq; subst. by rewrite bool_decide_eq_true_2.
    + rewrite bool_decide_eq_false_2; [by apply IH|].
      intros ->. apply Hk0. apply list_elem_of_fmap. by exists (k, v).
Qed.

Lemma tally_le_length {A : Type} (P : A -> bool) (l : list A) :
  tally P l <= Z.of_nat (length l).
Proof. induction l as [|x l IH]; simpl; [lia | destruct (P x); lia]. Qed.

Lemma tally_pos_elem (k : str) (cs : list str) :
  1 <= tally (fun c => bool_decide (c = k)) cs <-> k ∈ cs.
Proof.
  induction cs as [|c cs IH]; simpl.
  - split; [lia | by intros ?%elem_of_nil].
  - pose proof (tally_nonneg (fun c => bool_decide (c = k)) cs).
    rewrite elem_of_cons. case_bool_decide as Hc.
    + split; [intros _; by left | lia].
    + rewrite <- IH. split; [intros; right; lia | intros [?|?]; [congruence | lia]].
Qed.

Section Buckets.
Context {FP : PyFloat}.

(** The counting loop of [compute_probability_distribution]: one key per
    distinct check string, holding the number of words that produce it. *)
Lemma bucket_loop (guess : str) (word_list : list str) :
  word5 guess -> Forall word5 word_list ->
  exists checks counts,
    Forall2 (fun w c => compute_wordle_information guess w = Ok c) word_list checks /\
    for_each word_list (fun word d =>
      color_sequence <~ compute_wordle_information guess word ;;
      Ok (dict_incr color_sequence d)) [] = Ok counts /\
    NoDup counts.*1 /\
    (forall k, dict_count counts k = tally (fun c => bool_decide (c = k)) checks) /\
    (forall k, k ∈ counts.*1 <-> k ∈ checks) /\
    dict_total counts = Z.of_nat (length word_list).
Proof.
  intros [Hlg Hlowg] Hwl.
  destruct (for_each_list_inv
    (fun pre d => exists cs,
       Forall2 (fun w c => compute_wordle_information guess w = Ok c) pre cs /\
       NoDup d.*1 /\
       (forall k, dict_count d k = tally (fun c => bool_decide (c = k)) cs) /\
       (forall k, k ∈ d.*1 <-> k ∈ cs) /\
       dict_total d = Z.of_nat (length pre))
    word_list
    (fun word d =>
      color_sequence <~ compute_wordle_information guess word ;;
      Ok (dict_incr color_sequence d)) []) as (d & E & cs & H1 & H2 & H3 & H4 & H5).
  - exists []. split; [constructor|]. split; [constructor|]. by repeat split.
  - intros pre w d [post Hsplit] (cs & H1 & H2 & H3 & H4 & H5).
    assert (Hw : word5 w).
    { apply (proj1 (Forall_forall _ _) Hwl). rewrite Hsplit.
      apply elem_of_app. right. by left. }
    destruct Hw as [Hlw Hloww].
    destruct (feedback_rule guess w) as (c & Ec & _ & _); [lia | done |].
    rewrite Ec. simpl. eexists. split; [reflexivity|].
    exists (cs ++ [c]). split; [|split; [|split; [|split]]].
    + apply Forall2_app; [done | by constructor].
    + rewrite dict_incr_keys. case_bool_decide as Hin; [done|].
      apply NoDup_app. split; [done|]. split; [|apply NoDup_singleton].
      intros x Hx ->%list_elem_of_singleton. done.
    + intros k. rewrite dict_count_incr, tally_snoc, H3. done.
    + intros k. rewrite dict_incr_keys, elem_of_app, list_elem_of_singleton.
      case_bool_decide as Hin.
      * rewrite (H4 k). split; [tauto|]. intros [?| ->]; [done | by apply H4].
      * rewrite elem_of_app, list_elem_of_singleton, (H4 k). done.
    + rewrite dict_total_incr, H5, length_app. simpl. lia.
  - exists cs, d. split; [done|]. split; [done|]. split; [done|].
    split; [done|]. by split.
Qed.

(** The dividing loop, on a non-empty word list. *)
Lemma normalise_loop (n : Z) (counts : list (str * Z)) (acc : list (str * pyfloat)) :
  n <> 0 ->
  for_each counts (fun '(key, v) d =>
    if n =? 0 then Raise ZeroDivisionError
    else Ok (d ++ [(key, int_truediv v n)])) acc
  = Ok (acc ++ map (fun kv => (fst kv, int_truediv (snd kv) n)) counts).
Proof.
  intros Hn. revert acc. induction counts as [|[k v] counts IH]; intros acc; simpl.
  - by rewrite app_nil_r.
  - destruct (Z.eqb_spec n 0); [done|]. simpl. rewrite IH.
    by rewrite <- app_assoc.
Qed.

(** The summing loop of [compute_entropy]. *)
Lemma entropy_loop (pd : list (str * pyfloat)) (acc : pynum) :
  Forall (fun kv => exists r l, float_inv (snd kv) = Ok r /\ math_log2 r = Ok l) pd ->
  exists e,
    for_each pd (fun '(key, val) entropy =>
      r <~ float_inv val ;;
      l <~ math_log2 r ;;
      Ok (num_add_float entropy (float_mul val l))) acc = Ok e /\
    (pd = [] -> e = acc) /\ (pd <> [] -> is_float e).
Proof.
  intros Hpd. revert acc. induction Hpd as [|[k val] pd (r & l & Hr & Hl) _ IH];
    intros acc; simpl.
  - exists acc. by repeat split.
  - simpl in Hr. rewrite Hr. simpl. rewrite Hl. simpl.
    destruct (IH (num_add_float acc (float_mul val l))) as (e & E & He1 & He2).
    exists e. split; [done|]. split; [done|]. intros _.
    destruct pd as [|p pd']; [|by apply He2].
    rewrite He1 by done. by eexists.
Qed.

(** [compute_entropy] returns: the int [0] for no answers, a float
    otherwise. *)
Lemma compute_entropy_total (guess : str) (word_list : list str) :
  floats_defined FP -> word5 guess -> Forall word5 word_list ->
  exists e, compute_entropy guess word_list = Ok e /\
            (word_list = [] -> e = NInt 0) /\ (word_list <> [] -> is_float e).
Proof.
  intros Hfd Hg Hwl. unfold compute_entropy, compute_probability_distribution.
  destruct (bucket_loop guess word_list Hg Hwl)
    as (checks & counts & Hchecks & E & Hnd & Hcount & Hkeys & Htotal).
  rewrite E. simpl.
  destruct word_list as [|w word_list].
  - inversion Hchecks; subst.
    destruct counts as [|[k v] counts]; [|exfalso].
    + simpl. exists (NInt 0). by repeat split.
    + assert (Hk : k ∈ ((k, v) :: counts).*1) by (by left).
      apply Hkeys in Hk. by apply elem_of_nil in Hk.
  - rewrite normalise_loop by (simpl; lia). simpl.
    set (n := Z.of_nat (length (w :: word_list))).
    destruct (entropy_loop
      (map (fun kv => (fst kv, int_truediv (snd kv) n)) counts) (NInt 0))
      as (e & Ee & _ & Hfloat).
    { apply Forall_forall. intros kv Hkv.
      apply list_elem_of_fmap in Hkv as [[k v] [-> Hin]]. simpl.
      apply Hfd. rewrite <- (dict_count_elem counts k v Hnd Hin), Hcount.
      assert (Hkc : k ∈ checks).
      { apply Hkeys. apply list_elem_of_fmap. by exists (k, v). }
      apply tally_pos_elem in Hkc.
      pose proof (tally_le_length (fun c => bool_decide (c = k)) checks) as Hle.
      rewrite <- (Forall2_length _ _ _ Hchecks) in Hle. unfold n. lia. }
    exists e. split; [done|]. split; [done|]. intros _. apply Hfloat.
    inversion Hchecks as [|? c ? cs Hc Hcs]; subst.
    assert (Hk : c ∈ counts.*1) by (apply Hkeys; by left).
    destruct counts; [by apply elem_of_nil in Hk | done].
Qed.

End Buckets.

(** Exact real arithmetic meets the two conditions on the floats. *)
Lemma real_arith_defined : floats_defined real_arith.
Proof.
  intros c n Hcn. simpl.
  assert (Hc : (0 < IZR c)%R) by (apply IZR_lt; lia).
  assert (Hn : (0 < IZR n)%R) by (apply IZR_lt; lia).
  assert (Hq : (0 < IZR c / IZR n)%R) by (by apply Rdiv_lt_0_compat).
  destruct (Req_EM_T (IZR c / IZR n) 0) as [H0|_]; [lra|].
  assert (Hi : (0 < 1 / (IZR c / IZR n))%R).
  { apply Rdiv_lt_0_compat; [lra | done]. }
  exists (1 / (IZR c / IZR n))%R. eexists. split; [reflexivity|].
  destruct (Rle_dec (1 / (IZR c / IZR n)) 0) as [H0|_]; [|reflexivity].
  exfalso. exact (Rlt_not_le _ _ Hi H0).
Qed.


(** ** The ranking: edge case and order *)

(** With no possible answer left nothing fails: the probability dictionary
    is empty, the entropy is the int [0], and [generate_entropy_list] returns
    every word of the pool with entropy [0], in the order of the pool. *)
Theorem no_answers_entropy {FP : PyFloat} (guess : str) (word_list : list str) :
  compute_probability_distribution guess [] = Ok [] /\
  compute_entropy guess [] = Ok (NInt 0) /\
  generate_entropy_list word_list [] = Ok (map (fun w => (w, NInt 0)) word_list).
Proof.
  split; [reflexivity|]. split; [reflexivity|]. unfold generate_entropy_list.
  destruct (for_each_list_inv
    (fun pre el => el = map (fun w => (w, NInt 0)) pre) word_list
    (fun word el =>
       entropy <~ compute_entropy word [] ;; Ok (el ++ [(word, entropy)])) [])
    as (el & E & ->).
  - done.
  - intros pre w el _ ->. eexists. split; [reflexivity|].
    by rewrite map_app.
  - rewrite E. simpl. f_equal. unfold sorted_reverse.
    rewrite stable_sort_ties; [apply reverse_involutive|].
    intros x y Hx Hy. rewrite elem_of_reverse in Hx, Hy.
    apply list_elem_of_fmap in Hx as [? [-> _]].
    apply list_elem_of_fmap in Hy as [? [-> _]]. reflexivity.
Qed.

(** The probability dictionary has one key per distinct check string of the
    guess against the words, in no key twice; the value of a key is the
    number of words that produce it, at least 1, divided by the length of
    the list, and the counts add up to that length. *)
Theorem probability_buckets {FP : PyFloat} (guess : str) (word_list : list str) :
  word5 guess -> Forall word5 word_list ->
  exists checks counts,
    Forall2 (fun w c => compute_wordle_information guess w = Ok c) word_list checks /\
    compute_probability_distribution guess word_list
    = Ok (map (fun kv => (fst kv, int_truediv (snd kv) (Z.of_nat (length word_list))))
              counts) /\
    NoDup counts.*1 /\
    (forall c, c ∈ checks -> c ∈ counts.*1) /\
    (forall k v, (k, v) ∈ counts ->
       1 <= v /\ v = tally (fun c => bool_decide (c = k)) checks) /\
    dict_total counts = Z.of_nat (length word_list).
Proof.
  intros Hg Hwl.
  destruct (bucket_loop guess word_list Hg Hwl)
    as (checks & counts & Hchecks & E & Hnd & Hcount & Hkeys & Htotal).
  exists checks, counts. split; [done|].
  split; [|split; [done|]; split; [|split; [|done]]].
  - unfold compute_probability_distribution. rewrite E. simpl.
    destruct word_list as [|w wl].
    + inversion Hchecks; subst. destruct counts as [|[k v] counts]; [done|].
      assert (Hk : k ∈ ((k, v) :: counts).*1) by (by left).
      apply Hkeys in Hk. by apply elem_of_nil in Hk.
    + by rewrite normalise_loop by (simpl; lia).
  - intros c Hc. by apply Hkeys.
  - intros k v Hin. rewrite <- (dict_count_elem counts k v Hnd Hin), Hcount.
    split; [|done]. apply tally_pos_elem, Hkeys.
    apply list_elem_of_fmap. by exists (k, v).
Qed.

Lemma probability_buckets_witness :
  exists checks counts,
    Forall2 (fun w c => compute_wordle_information (s "tares") w = Ok c)
      [s "slate"; s "arise"] checks /\
    compute_probability_distribution (FP := real_arith) (s "tares")
      [s "slate"; s "arise"]
    = Ok (map (fun kv => (fst kv,
                          int_truediv (snd kv)
                            (Z.of_nat (length [s "slate"; s "arise"]))))
              counts) /\
    NoDup counts.*1 /\
    (forall c, c ∈ checks -> c ∈ counts.*1) /\
    (forall k v, (k, v) ∈ counts ->
       1 <= v /\ v = tally (fun c => bool_decide (c = k)) checks) /\
    dict_total counts = Z.of_nat (length [s "slate"; s "arise"]).
Proof.
  apply (probability_buckets (FP := real_arith) (s "tares") [s "slate"; s "arise"]).
  - apply word5b_true. reflexivity.
  - repeat constructor; apply word5b_true; reflexivity.
Defined.



(** ** Self-play *)

Section Play.
Context {FP : PyFloat}.

Lemma generate_entropy_list_total (word_list possible_guesses : list str) :
  floats_defined FP -> Forall word5 word_list -> Forall word5 possible_guesses ->
  exists out, generate_entropy_list word_list possible_guesses = Ok out /\
              fst <$> out ≡ₚ word_list.
Proof.
  intros Hfd Hwl Hpg. unfold generate_entropy_list.
  destruct (for_each_list_inv
    (fun pre (el : list (str * pynum)) => fst <$> el = pre)
    word_list
    (fun word el =>
       entropy <~ compute_entropy word possible_guesses ;;
       Ok (el ++ [(word, entropy)])) [])
    as (entries & E & Hentries).
  - done.
  - intros pre w el [post Hsplit] H1.
    assert (Hw : word5 w).
    { apply (proj1 (Forall_forall _ _) Hwl). rewrite Hsplit.
      apply elem_of_app. right. by left. }
    destruct (compute_entropy_total w possible_guesses Hfd Hw Hpg) as (e & Ee & _).
    rewrite Ee. simpl. eexists. split; [reflexivity|].
    by rewrite fmap_app, H1.
  - rewrite E. simpl. eexists. split; [reflexivity|].
    by rewrite sorted_reverse_perm, Hentries.
Qed.

Lemma getitem_0 {A : Type} (l : list A) (x : A) :
  l !! 0%nat = Some x -> getitem l 0 = Ok x.
Proof. exact (getitem_nat l 0 x). Qed.

Lemma pick_suggestion_total (entropy_list : list (str * pynum))
  (possible_guesses : list str) :
  entropy_list <> [] ->
  exists g, pick_suggestion entropy_list possible_guesses = Ok g /\
            (g ∈ fst <$> entropy_list \/ g ∈ possible_guesses).
Proof.
  intros Hne. unfold pick_suggestion.
  destruct entropy_list as [|top rest] eqn:Hel; [done|]. rewrite <- Hel in *.
  assert (H0 : entropy_list !! 0%nat = Some top) by (by rewrite Hel).
  match goal with
  | |- exists g, bind _ ?k = _ /\ _ => set (K := k)
  end.
  rewrite (getitem_0 entropy_list top H0). simpl. subst K. cbv beta.
  destruct (for_each_list_inv
    (fun _ g => g ∈ fst <$> entropy_list \/ g ∈ possible_guesses)
    possible_guesses
    (fun guess guess_suggestion =>
      for_each (range (length entropy_list)) (fun i guess_suggestion =>
        e <~ getitem entropy_list i ;;
        if bool_decide (fst e = guess) then
          e0 <~ getitem entropy_list 0 ;;
          ei <~ getitem entropy_list i ;;
          if num_eq (snd e0) (snd ei) then Ok guess else Ok guess_suggestion
        else Ok guess_suggestion) guess_suggestion) (fst top)) as (g & E & Hg).
  - left. apply list_elem_of_fmap. exists top. split; [done|].
    apply list_elem_of_lookup. by exists 0%nat.
  - intros pre guess g1 [post Hsplit] Hg1.
    assert (Hguess : guess ∈ possible_guesses).
    { rewrite Hsplit. apply elem_of_app. right. by left. }
    range_loop (fun (_ : nat) (g : str) =>
      g ∈ fst <$> entropy_list \/ g ∈ possible_guesses).
    + done.
    + intros i g2 Hi Hg2.
      destruct (lookup_lt_is_Some_2 entropy_list i Hi) as [e He].
      rewrite (getitem_nat _ _ _ He). simpl.
      case_bool_decide; [|by eexists].
      rewrite (getitem_0 entropy_list top H0). simpl.
      destruct (num_eq _ _); eexists; (split; [reflexivity|]); [by right | done].
    + intros g2 E2 Hg2. exists g2. by split.
  - exists g. by split.
Qed.

(** What one pass does from a state the loop can be in. *)
Lemma play_turn_total (lines : list str) (answer : str)
  (arr : array) (guess : str) (k : Z) :
  floats_defined FP -> lines <> [] -> Forall word5 lines -> word5 answer ->
  typed arr -> word5 guess ->
  exists check,
    compute_wordle_information guess answer = Ok check /\
    ((check = all_green /\
      play_turn lines answer (arr, guess, k) = Ok (Return (k + 1))) \/
     (check <> all_green /\
      exists arr' guess',
        generate_array guess check arr = Ok arr' /\
        typed arr' /\ word5 guess' /\ guess' ∈ lines /\
        play_turn lines answer (arr, guess, k)
        = Ok (if 6 <=? k + 1 then Return (k + 1 + 1)
              else Continue (arr', guess', k + 1)))).
Proof.
  intros Hfd Hne Hlines Ha Ht Hg.
  pose proof Ha as [Hla Hlowa]. pose proof Hg as [Hlg Hlowg].
  destruct (feedback_rule guess answer) as (check & Ec & Hlc & _); [lia | done |].
  exists check. split; [done|].
  destruct (decide (check = all_green)) as [Hwin|Hnot].
  { left. split; [done|]. unfold play_turn. rewrite Ec. simpl.
    by rewrite bool_decide_eq_true_2. }
  right. split; [done|].
  destruct (generate_array_typed guess check arr Hg ltac:(lia) Ht) as (arr' & Ea & Ht').
  pose proof (filter_lines_keeps_valid lines arr' Hlines Ht') as Ef.
  assert (Hpg : Forall word5 (List.filter (accepts arr') lines)).
  { apply Forall_forall. intros w Hw%list_elem_of_In%filter_In.
    destruct Hw as [Hw%list_elem_of_In _].
    by apply (proj1 (Forall_forall _ _) Hlines). }
  destruct (generate_entropy_list_total lines (List.filter (accepts arr') lines)
              Hfd Hlines Hpg) as (out & Eo & Hperm).
  assert (Hout : out <> []).
  { intros ->. apply Hne. symmetry in Hperm. by apply Permutation_nil_r in Hperm. }
  destruct (pick_suggestion_total out (List.filter (accepts arr') lines) Hout)
    as (g' & Ep & Hg').
  assert (Hin : g' ∈ lines).
  { destruct Hg' as [Hg'|Hg']; [by rewrite Hperm in Hg'|].
    apply list_elem_of_In, filter_In in Hg' as [Hg' _]. by apply list_elem_of_In. }
  exists arr', g'. split; [done|]. split; [done|].
  split; [by apply (proj1 (Forall_forall _ _) Hlines)|]. split; [done|].
  unfold play_turn. rewrite Ec. simpl.
  rewrite bool_decide_eq_false_2 by done.
  rewrite Ea. simpl. rewrite Ef. simpl. rewrite Eo. simpl. rewrite Ep. simpl.
  by destruct (6 <=? k + 1).
Qed.

End Play.

Lemma while_true_more_fuel {S R : Type} (body : S -> result (flow S R))
  (fuel fuel' : nat) (st : S) (r : result R) :
  while_true fuel body st = Some r -> (fuel <= fuel')%nat ->
  while_true fuel' body st = Some r.
Proof.
  revert fuel' st. induction fuel as [|fuel IH]; intros fuel' st H Hle; [done|].
  destruct fuel' as [|fuel']; [lia|]. simpl in *.
  destruct (body st) as [[st'|x]|e]; [|done|done].
  apply IH; [done | lia].
Qed.

Section PlayLoop.
Context {FP : PyFloat}.

Lemma play_from (lines : list str) (answer : str) (m k : nat)
  (arr : array) (guess : str) :
  floats_defined FP -> lines <> [] -> Forall word5 lines -> word5 answer ->
  (k + m = 5)%nat -> typed arr -> word5 guess ->
  pass_state lines answer k (arr, guess, Z.of_nat k) ->
  exists n j arr' guess',
    while_true (S m) (play_turn lines answer) (arr, guess, Z.of_nat k) = Some (Ok n) /\
    pass_state lines answer j (arr', guess', Z.of_nat j) /\
    (j <= 5)%nat /\ word5 guess' /\
    ((compute_wordle_information guess' answer = Ok all_green /\
      n = Z.of_nat j + 1) \/
     (compute_wordle_information guess' answer <> Ok all_green /\
      j = 5%nat /\ n = 7)).
Proof.
  intros Hfd Hne Hlines Ha. revert k arr guess.
  induction m as [|m IH]; intros k arr guess Hkm Ht Hg Hps.
  - destruct (play_turn_total lines answer arr guess (Z.of_nat k)
                Hfd Hne Hlines Ha Ht Hg) as (check & Ec & [[Hwin Ep] | [Hnot Hrest]]).
    + exists (Z.of_nat k + 1), k, arr, guess. cbn [while_true]. rewrite Ep.
      split; [done|]. split; [done|]. split; [lia|]. split; [done|].
      left. by rewrite Ec, Hwin.
    + destruct Hrest as (arr' & guess' & _ & _ & _ & _ & Ep).
      replace (6 <=? Z.of_nat k + 1) with true in Ep by (symmetry; apply Z.leb_le; lia).
      exists 7, k, arr, guess. cbn [while_true]. rewrite Ep.
      split; [do 2 f_equal; lia|]. split; [done|]. split; [lia|]. split; [done|].
      right. split; [|split; [lia | done]]. rewrite Ec. congruence.
  - destruct (play_turn_total lines answer arr guess (Z.of_nat k)
                Hfd Hne Hlines Ha Ht Hg) as (check & Ec & [[Hwin Ep] | [Hnot Hrest]]).
    + exists (Z.of_nat k + 1), k, arr, guess.
      cbn [while_true]. rewrite Ep.
      split; [done|]. split; [done|]. split; [lia|]. split; [done|].
      left. by rewrite Ec, Hwin.
    + destruct Hrest as (arr' & guess' & _ & Ht' & Hg' & _ & Ep).
      replace (6 <=? Z.of_nat k + 1) with false in Ep by (symmetry; apply Z.leb_gt; lia).
      replace (Z.of_nat k + 1) with (Z.of_nat (S k)) in Ep by lia.
      destruct (IH (S k) arr' guess') as (n & j & arr2 & guess2 & Ew & Hrest);
        [lia | done | done | by apply (pass_next lines answer k _ _ Hps Ep) |].
      exists n, j, arr2, guess2. split; [|done].
      cbn [while_true]. rewrite Ep. exact Ew.
Qed.

Lemma play_turn_shape (lines : list str) (answer : str)
  (arr : array) (guess : str) (k : Z) (r : flow (array * str * Z) Z) :
  play_turn lines answer (arr, guess, k) = Ok r ->
  match r with
  | Return n =>
      (n = k + 1 /\ compute_wordle_information guess answer = Ok all_green) \/
      n = k + 2
  | Continue (_, _, k') => k' = k + 1
  end.
Proof.
  unfold play_turn.
  destruct (compute_wordle_information guess answer) as [check|]; simpl; [|done].
  case_bool_decide as Hc.
  { intros H. inversion H; subst. left. by split. }
  destruct (generate_array guess check arr) as [arr'|]; simpl; [|done].
  destruct (filter_lines lines arr') as [pg|]; simpl; [|done].
  destruct (generate_entropy_list lines pg) as [el|]; simpl; [|done].
  destruct (pick_suggestion el pg) as [g'|]; simpl; [|done].
  destruct (6 <=? k + 1); intros H; inversion H; subst; [right; lia | done].
Qed.

Lemma while_true_play_lower (lines : list str) (answer : str) (fuel : nat)
  (arr : array) (guess : str) (k n : Z) :
  while_true fuel (play_turn lines answer) (arr, guess, k) = Some (Ok n) ->
  k + 1 <= n /\
  (n = k + 1 -> compute_wordle_information guess answer = Ok all_green).
Proof.
  revert arr guess k. induction fuel as [|fuel IH]; intros arr guess k H; [done|].
  cbn [while_true] in H.
  destruct (play_turn lines answer (arr, guess, k)) as [r|] eqn:E; [|done].
  apply play_turn_shape in E. destruct r as [[[arr' g'] k']|n'].
  - subst k'. apply IH in H as [H1 _]. split; [lia|]. intros ->. lia.
  - inversion H; subst n'. destruct E as [[-> Hw] | ->].
    + split; [lia | done].
    + split; [lia|]. intros. lia.
Qed.

End PlayLoop.

(** In self-play on a non-empty file of five-letter lowercase words the loop
    returns within six passes.  It returns the number of the pass whose
    guess got the all-green check string, no earlier pass having returned,
    and 7 when the guess of the sixth pass did not get it.  More fuel does
    not change the result. *)
Theorem self_play_result {FP : PyFloat} (lines : list str) (answer : str) :
  floats_defined FP -> lines <> [] -> Forall word5 lines -> word5 answer ->
  exists n j arr guess,
    (forall fuel, (6 <= fuel)%nat ->
       computer_play_wordle fuel lines answer = Some (Ok n)) /\
    pass_state lines answer j (arr, guess, Z.of_nat j) /\ (j <= 5)%nat /\
    ((compute_wordle_information guess answer = Ok all_green /\
      n = Z.of_nat j + 1) \/
     (compute_wordle_information guess answer <> Ok all_green /\
      j = 5%nat /\ n = 7)).
Proof.
  intros Hfd Hne Hlines Ha.
  destruct (play_from lines answer 5 0 new_array (s "tares") Hfd Hne Hlines Ha)
    as (n & j & arr & guess & Ew & Hps & Hj & _ & Hres).
  - reflexivity.
  - apply typed_new_array.
  - apply word5b_true. reflexivity.
  - constructor.
  - exists n, j, arr, guess. split; [|by split].
    intros fuel Hfuel. unfold computer_play_wordle.
    by apply (while_true_more_fuel _ 6 fuel).
Qed.

Lemma self_play_result_witness :
  exists n j arr guess,
    (forall fuel, (6 <= fuel)%nat ->
       computer_play_wordle (FP := real_arith) fuel [s "slate"; s "tares"] (s "slate")
       = Some (Ok n)) /\
    pass_state (FP := real_arith) [s "slate"; s "tares"] (s "slate") j
      (arr, guess, Z.of_nat j) /\ (j <= 5)%nat /\
    ((compute_wordle_information guess (s "slate") = Ok all_green /\
      n = Z.of_nat j + 1) \/
     (compute_wordle_information guess (s "slate") <> Ok all_green /\
      j = 5%nat /\ n = 7)).
Proof.
  apply (self_play_result (FP := real_arith) [s "slate"; s "tares"] (s "slate")).
  - apply real_arith_defined.
  - discriminate.
  - repeat constructor; apply word5b_true; reflexivity.
  - apply word5b_true. reflexivity.
Defined.

(** For a five-letter lowercase answer and any word file, self-play returns
    1 exactly when the answer is the opening guess "tares". *)
Theorem self_play_first_try {FP : PyFloat} (lines : list str) (answer : str)
  (fuel : nat) :
  word5 answer ->
  computer_play_wordle (S fuel) lines answer = Some (Ok 1) <-> answer = s "tares".
Proof.
  intros [Hla Hlowa]. unfold computer_play_wordle. split.
  - intros H. apply while_true_play_lower in H as [_ H]. specialize (H eq_refl).
    symmetry. apply (feedback_all_green (s "tares") answer); [by rewrite Hla | done |].
    exact H.
  - intros ->. reflexivity.
Qed.

Lemma self_play_first_try_witness :
  computer_play_wordle (FP := real_arith) 1 [] (s "tares") = Some (Ok 1)
  <-> s "tares" = s "tares".
Proof.
  apply (self_play_first_try (FP := real_arith) [] (s "tares") 0).
  apply word5b_true. reflexivity.
Defined.

(** What holds of every state the self-play loop reaches. *)
Lemma pass_state_inv {FP : PyFloat} (lines : list str) (answer : str)
  (j : nat) (st : array * str * Z) :
  floats_defined FP -> lines <> [] -> Forall word5 lines -> word5 answer ->
  pass_state lines answer j st ->
  exists arr guess,
    st = (arr, guess, Z.of_nat j) /\ typed arr /\ word5 guess /\
    (guess = s "tares" \/ guess ∈ lines) /\ consistent answer arr.
Proof.
  intros Hfd Hne Hlines Ha. induction 1 as [|k st st' Hps IH Hturn].
  - exists new_array, (s "tares"). split; [done|]. split; [apply typed_new_array|].
    split; [apply word5b_true; reflexivity|]. split; [by left|].
    apply consistent_new_array.
  - destruct IH as (arr & guess & -> & Ht & Hg & _ & Hc).
    destruct (play_turn_total lines answer arr guess (Z.of_nat k)
                Hfd Hne Hlines Ha Ht Hg) as (check & Ec & [[_ Ep] | [_ Hrest]]).
    + rewrite Ep in Hturn. discriminate.
    + destruct Hrest as (arr' & guess' & Ea & Ht' & Hg' & Hin & Ep).
      rewrite Ep in Hturn. destruct (6 <=? Z.of_nat k + 1); [discriminate|].
      inversion Hturn; subst st'. exists arr', guess'.
      split; [do 2 f_equal; lia|]. split; [done|]. split; [done|].
      split; [by right|].
      by apply (consistent_update answer guess check arr arr').
Qed.



(** Self-play never reports a solve for a word it cannot guess: when the
    answer is neither "tares" nor a word of the file, the result is 7. *)
Theorem self_play_unknown_answer {FP : PyFloat} (lines : list str) (answer : str) :
  floats_defined FP -> lines <> [] -> Forall word5 lines -> word5 answer ->
  answer <> s "tares" -> answer ∉ lines ->
  computer_play_wordle 6 lines answer = Some (Ok 7).
Proof.
  intros Hfd Hne Hlines Ha Hnt Hnl.
  destruct (play_from lines answer 5 0 new_array (s "tares") Hfd Hne Hlines Ha)
    as (n & j & arr & guess & Ew & Hps & Hj & Hg & Hres).
  - reflexivity.
  - apply typed_new_array.
  - apply word5b_true. reflexivity.
  - constructor.
  - unfold computer_play_wordle. change (Z.of_nat 0) with 0 in Ew. rewrite Ew.
    destruct Hres as [[Hwin _] | (_ & _ & ->)]; [exfalso | done].
    destruct (pass_state_inv lines answer j _ Hfd Hne Hlines Ha Hps)
      as (arr0 & guess0 & Heq & _ & _ & Hmem & _).
    inversion Heq; subst arr0 guess0. clear Heq.
    destruct Hg as [Hlg _]. destruct Ha as [Hla Hlowa].
    assert (Heq : guess = answer).
    { apply (feedback_all_green guess answer); [lia | done |].
      rewrite Hwin, Hlg. reflexivity. }
    subst guess. destruct Hmem; contradiction.
Qed.

Lemma self_play_unknown_answer_witness :
  computer_play_wordle (FP := real_arith) 6 [s "slate"; s "arise"] (s "crane")
  = Some (Ok 7).
Proof.
  apply (self_play_unknown_answer (FP := real_arith) [s "slate"; s "arise"] (s "crane")).
  - apply real_arith_defined.
  - discriminate.
  - repeat constructor; apply word5b_true; reflexivity.
  - apply word5b_true. reflexivity.
  - discriminate.
  - intros Hin. repeat (apply elem_of_cons in Hin as [Hin|Hin]; [discriminate|]).
    by apply elem_of_nil in Hin.
Defined.

(** With an empty word file, self-play on any five-letter lowercase answer
    other than "tares" raises [IndexError]: the ranking is empty and has no
    first entry. *)
Theorem self_play_empty_file {FP : PyFloat} (answer : str) (fuel : nat) :
  word5 answer -> answer <> s "tares" ->
  computer_play_wordle (S fuel) [] answer = Some (Raise IndexError).
Proof.
  intros Ha Hnt. pose proof Ha as [Hla Hlowa].
  destruct (feedback_rule (s "tares") answer) as (check & Ec & Hlc & _);
    [by rewrite Hla | done |].
  assert (Hnot : check <> all_green).
  { intros ->. apply Hnt. symmetry.
    apply (feedback_all_green (s "tares") answer); [by rewrite Hla | done | done]. }
  destruct (generate_array_stored (s "tares") check new_array)
    as (arr & Ea & _); [apply word5b_true; reflexivity | simpl in Hlc; lia |
                         apply shape_new_array |].
  unfold computer_play_wordle. cbn [while_true]. unfold play_turn.
  rewrite Ec. cbn [bind]. rewrite bool_decide_eq_false_2 by done.
  rewrite Ea. reflexivity.
Qed.

Lemma self_play_empty_file_witness :
  computer_play_wordle (FP := real_arith) 1 [] (s "slate") = Some (Raise IndexError).
Proof.
  apply (self_play_empty_file (FP := real_arith) (s "slate") 0).
  - apply word5b_true. reflexivity.
  - discriminate.
Defined.

(** ** Batch evaluation *)

Lemma self_play_bounds {FP : PyFloat} (lines : list str) (answer : str) :
  floats_defined FP -> lines <> [] -> Forall word5 lines -> word5 answer ->
  exists n, computer_play_wordle 6 lines answer = Some (Ok n) /\ 1 <= n <= 7.
Proof.
  intros Hfd Hne Hlines Ha.
  destruct (play_from lines answer 5 0 new_array (s "tares") Hfd Hne Hlines Ha)
    as (n & j & arr & guess & Ew & _ & Hj & _ & Hres).
  - reflexivity.
  - apply typed_new_array.
  - apply word5b_true. reflexivity.
  - constructor.
  - exists n. split; [exact Ew|].
    destruct Hres as [[_ ->] | (_ & _ & ->)]; lia.
Qed.

(** [get_bot_efficiency] on a non-empty file of five-letter lowercase words
    plays every word of the file, each game ending with a turn count between
    1 and 7; it reports as failures the words whose count is 7, in the order
    of the file, and as average the sum of the counts divided by the number
    of words.  On an empty file it raises [ZeroDivisionError]. *)
Theorem bot_efficiency_report {FP : PyFloat} (lines : list str) :
  floats_defined FP -> Forall word5 lines ->
  (lines = [] -> get_bot_efficiency 6 lines = Some (Raise ZeroDivisionError)) /\
  (lines <> [] ->
   exists turns,
     Forall2 (fun w n => computer_play_wordle 6 lines w = Some (Ok n) /\ 1 <= n <= 7)
       lines turns /\
     get_bot_efficiency 6 lines
     = Some (Ok (failures lines turns,
                 int_truediv (total turns) (Z.of_nat (length lines))))).
Proof.
  intros Hfd Hlines. split; [by intros ->|]. intros Hne.
  assert (Hloop : forall eles win_count fail_array,
    Forall word5 eles ->
    exists turns,
      Forall2 (fun w n => computer_play_wordle 6 lines w = Some (Ok n) /\ 1 <= n <= 7)
        eles turns /\
      bot_loop 6 lines eles win_count fail_array
      = Some (Ok (win_count + total turns, fail_array ++ failures eles turns))).
  { intros eles. induction eles as [|ele rest IH]; intros wc fa Heles.
    - exists []. split; [constructor|]. cbn [bot_loop]. unfold total, failures. simpl.
      by rewrite Z.add_0_r, app_nil_r.
    - inversion Heles as [|? ? Hele Hrest]; subst.
      destruct (self_play_bounds lines ele Hfd Hne Hlines Hele) as (n & En & Hn).
      destruct (IH (wc + n) (if 7 <=? n then fa ++ [ele] else fa) Hrest)
        as (turns & Hturns & El).
      exists (n :: turns). split; [by constructor|].
      cbn [bot_loop]. rewrite En, El. do 3 f_equal.
      + unfold total. simpl. lia.
      + unfold failures. simpl. destruct (7 <=? n); simpl; [|done].
        by rewrite <- app_assoc. }
  destruct (Hloop lines 0 [] Hlines) as (turns & Hturns & El).
  exists turns. split; [done|]. unfold get_bot_efficiency. rewrite El.
  destruct (Z.eqb_spec (Z.of_nat (length lines)) 0) as [H0|_].
  - destruct lines; [done | simpl in H0; lia].
  - by rewrite Z.add_0_l.
Qed.

Lemma bot_efficiency_report_witness :
  ([s "slate"; s "tares"] = [] ->
   get_bot_efficiency (FP := real_arith) 6 [s "slate"; s "tares"]
   = Some (Raise ZeroDivisionError)) /\
  ([s "slate"; s "tares"] <> [] ->
   exists turns,
     Forall2 (fun w n =>
        computer_play_wordle (FP := real_arith) 6 [s "slate"; s "tares"] w
        = Some (Ok n) /\ 1 <= n <= 7)
       [s "slate"; s "tares"] turns /\
     get_bot_efficiency (FP := real_arith) 6 [s "slate"; s "tares"]
     = Some (Ok (failures [s "slate"; s "tares"] turns,
                 int_truediv (total turns)
                   (Z.of_nat (length [s "slate"; s "tares"]))))).
Proof.
  apply (bot_efficiency_report (FP := real_arith) [s "slate"; s "tares"]).
  - apply real_arith_defined.
  - repeat constructor; apply word5b_true; reflexivity.
Defined.

(** ** The suggestion *)

(** The suggestion is the last possible answer that has an entry of the
    ranking with the entropy of the top entry, and the word of the top entry
    when no possible answer has one. *)
Theorem suggestion_rule {FP : PyFloat} (entropy_list : list (str * pynum))
  (possible_guesses : list str) (top : str * pynum) :
  entropy_list !! 0%nat = Some top ->
  pick_suggestion entropy_list possible_guesses
  = Ok (List.last (List.filter (ties_with_top entropy_list top) possible_guesses)
          (fst top)).
Proof.
  intros H0. unfold pick_suggestion.
  match goal with
  | |- bind _ ?k = _ => set (K := k)
  end.
  rewrite (getitem_0 entropy_list top H0). simpl. subst K. cbv beta.
  assert (Hinner : forall guess g_in,
    for_each (range (length entropy_list)) (fun i guess_suggestion =>
      e <~ getitem entropy_list i ;;
      if bool_decide (fst e = guess) then
        e0 <~ getitem entropy_list 0 ;;
        ei <~ getitem entropy_list i ;;
        if num_eq (snd e0) (snd ei) then Ok guess else Ok guess_suggestion
      else Ok guess_suggestion) g_in
    = Ok (if ties_with_top entropy_list top guess then guess else g_in)).
  { intros guess g_in.
    range_loop (fun (i : nat) (g : str) =>
      g = if existsb (fun e => bool_decide (fst e = guess)
                               && num_eq (snd top) (snd e)) (take i entropy_list)
          then guess else g_in).
    - by rewrite take_0.
    - intros i g Hi ->.
      destruct (lookup_lt_is_Some_2 entropy_list i Hi) as [e He].
      rewrite (getitem_nat _ _ _ He). simpl.
      rewrite (take_S_r _ _ _ He), existsb_app. simpl. rewrite orb_false_r.
      case_bool_decide as Hw; simpl.
      + rewrite (getitem_0 entropy_list top H0). simpl.
        destruct (num_eq (snd top) (snd e)); eexists; (split; [reflexivity|]).
        * by rewrite orb_true_r.
        * by rewrite orb_false_r.
      + eexists. split; [reflexivity|]. by rewrite orb_false_r.
    - intros g -> ->. by rewrite take_ge. }
  destruct (for_each_list_inv
    (fun pre g =>
       g = List.last (List.filter (ties_with_top entropy_list top) pre) (fst top))
    possible_guesses
    (fun guess guess_suggestion =>
      for_each (range (length entropy_list)) (fun i guess_suggestion =>
        e <~ getitem entropy_list i ;;
        if bool_decide (fst e = guess) then
          e0 <~ getitem entropy_list 0 ;;
          ei <~ getitem entropy_list i ;;
          if num_eq (snd e0) (snd ei) then Ok guess else Ok guess_suggestion
        else Ok guess_suggestion) guess_suggestion) (fst top)) as (g & E & ->).
  - done.
  - intros pre guess g1 _ ->. rewrite Hinner. eexists. split; [reflexivity|].
    rewrite List.filter_app. simpl.
    destruct (ties_with_top entropy_list top guess).
    + by rewrite last_last.
    + by rewrite app_nil_r.
  - exact E.
Qed.

Lemma suggestion_rule_witness :
  pick_suggestion (FP := real_arith)
    [(s "tares", NInt 0); (s "slate", NInt 0)] [s "slate"]
  = Ok (List.last
          (List.filter
             (ties_with_top (FP := real_arith)
                [(s "tares", NInt 0); (s "slate", NInt 0)] (s "tares", NInt 0))
             [s "slate"])
          (fst (s "tares", NInt (FP := real_arith) 0))).
Proof.
  apply (suggestion_rule (FP := real_arith)
           [(s "tares", NInt 0); (s "slate", NInt 0)] [s "slate"]
           (s "tares", NInt 0)).
  reflexivity.
Defined.

(** ** Which characters address a row *)

(** On an array of 26 rows, [array[index_of_letter(c)]] succeeds exactly for
    the characters with codes 71 to 122 (['G'] to ['z']); for a code from 71
    to 96 the index is negative and addresses the row of the character 26
    codes higher, and every other character raises [IndexError]. *)
Theorem row_subscript_range (arr : array) (c : ascii) :
  length arr = 26%nat ->
  ((71 <= nat_of_ascii c <= 122)%nat <->
   exists row, getitem arr (index_of_letter c) = Ok row) /\
  ((71 <= nat_of_ascii c <= 96)%nat ->
   getitem arr (index_of_letter c)
   = getitem arr (index_of_letter (ascii_of_nat (nat_of_ascii c + 26)))) /\
  (~ (71 <= nat_of_ascii c <= 122)%nat ->
   getitem arr (index_of_letter c) = Raise IndexError).
Proof.
  intros Hlen.
  assert (Hidx : index_of_letter c = Z.of_nat (nat_of_ascii c) - 97) by reflexivity.
  assert (Hlow : (97 <= nat_of_ascii c <= 122)%nat ->
            exists row, arr !! (nat_of_ascii c - 97)%nat = Some row /\
                        getitem arr (index_of_letter c) = Ok row).
  { intros H. destruct (lookup_lt_is_Some_2 arr (nat_of_ascii c - 97)) as [row Hr]; [lia|].
    exists row. split; [done|]. rewrite Hidx.
    replace (Z.of_nat (nat_of_ascii c) - 97) with (Z.of_nat (nat_of_ascii c - 97)) by lia.
    by apply getitem_nat. }
  assert (Hneg : (71 <= nat_of_ascii c <= 96)%nat ->
            exists row, arr !! (nat_of_ascii c - 71)%nat = Some row /\
                        getitem arr (index_of_letter c) = Ok row).
  { intros H. destruct (lookup_lt_is_Some_2 arr (nat_of_ascii c - 71)) as [row Hr]; [lia|].
    exists row. split; [done|]. rewrite Hidx.
    replace (Z.of_nat (nat_of_ascii c) - 97)
      with (- (97 - Z.of_nat (nat_of_ascii c))) by lia.
    apply getitem_neg; [lia|]. rewrite <- Hr. f_equal. lia. }
  assert (Hout : ~ (71 <= nat_of_ascii c <= 122)%nat ->
            getitem arr (index_of_letter c) = Raise IndexError).
  { intros H. unfold getitem, py_index. rewrite Hidx, Hlen.
    destruct (Z.leb_spec 0 (Z.of_nat (nat_of_ascii c) - 97));
      destruct (Z.ltb_spec (Z.of_nat (nat_of_ascii c) - 97) (Z.of_nat 26));
      destruct (Z.leb_spec (- Z.of_nat 26) (Z.of_nat (nat_of_ascii c) - 97));
      destruct (Z.ltb_spec (Z.of_nat (nat_of_ascii c) - 97) 0);
      simpl; try reflexivity; lia. }
  split; [|split; [|done]].
  - split.
    + intros H. destruct (decide (97 <= nat_of_ascii c)%nat).
      * destruct Hlow as (row & _ & E); [lia|]. by exists row.
      * destruct Hneg as (row & _ & E); [lia|]. by exists row.
    + intros [row E]. destruct (decide (71 <= nat_of_ascii c <= 122)%nat); [done|].
      rewrite Hout in E by done. discriminate.
  - intros H. destruct (Hneg H) as (row & Hr & ->).
    unfold index_of_letter. rewrite nat_ascii_embedding by lia.
    change (nat_of_ascii "a") with 97%nat.
    replace (Z.of_nat (nat_of_ascii c + 26) - Z.of_nat 97)
      with (Z.of_nat (nat_of_ascii c - 71)) by lia.
    symmetry. by apply getitem_nat.
Qed.

Lemma row_subscript_range_witness :
  ((71 <= nat_of_ascii "G" <= 122)%nat <->
   exists row, getitem new_array (index_of_letter "G") = Ok row) /\
  ((71 <= nat_of_ascii "G" <= 96)%nat ->
   getitem new_array (index_of_letter "G")
   = getitem new_array (index_of_letter (ascii_of_nat (nat_of_ascii "G" + 26)))) /\
  (~ (71 <= nat_of_ascii "G" <= 122)%nat ->
   getitem new_array (index_of_letter "G") = Raise IndexError).
Proof.
  apply (row_subscript_range new_array "G"). reflexivity.
Defined.

(** ** The count and the flag on a well-formed check string *)

Lemma tiles_split (c : ascii) (ps : list (ascii * ascii)) :
  Forall (fun p => snd p = "g"%char \/ snd p = "y"%char \/ snd p = "b"%char) ps ->
  tally (fun p => (Ascii.eqb (snd p) "g" || Ascii.eqb (snd p) "y")
                  && Ascii.eqb (fst p) c) ps
  + tally (fun p => Ascii.eqb (snd p) "b" && Ascii.eqb (fst p) c) ps
  = tally (fun p => Ascii.eqb (fst p) c) ps /\
  existsb (fun p => Ascii.eqb (snd p) "b" && Ascii.eqb (fst p) c) ps
  = (0 <? tally (fun p => Ascii.eqb (snd p) "b" && Ascii.eqb (fst p) c) ps).
Proof.
  induction 1 as [|[g x] ps Hx _ [IH1 IH2]]; [done|]. simpl in Hx |- *.
  pose proof (tally_nonneg
    (fun p => Ascii.eqb (snd p) "b" && Ascii.eqb (fst p) c) ps) as Hn.
  rewrite IH2. destruct (Ascii.eqb g c);
    destruct Hx as [-> | [-> | ->]]; simpl; (split; [lia | zbool]).
Qed.

(** On a check string made of the characters g, y and b, at least as long
    as the guess, [compute_letter_freq] returns a count between 0 and the
    number of copies of the letter in the guess, and the flag is [True]
    exactly when the count is smaller than that number. *)
Theorem letter_freq_partition (letter : ascii) (guess check : str) :
  (length guess <= length check)%nat ->
  Forall (fun x => x = "g"%char \/ x = "y"%char \/ x = "b"%char) check ->
  exists m e,
    compute_letter_freq letter guess check = Ok (m, e) /\
    0 <= m <= count letter guess /\
    (e = true <-> m < count letter guess).
Proof.
  intros Hlen Hcheck. rewrite compute_letter_freq_spec by done.
  exists (marked letter guess check), (blacked letter guess check).
  split; [done|].
  assert (Hps : Forall (fun p => snd p = "g"%char \/ snd p = "y"%char \/ snd p = "b"%char)
                  (zip guess check)).
  { apply Forall_forall. intros [g x] Hin.
    apply list_elem_of_lookup in Hin as [j Hj].
    apply lookup_zip_with_Some in Hj as (g' & x' & Heq & _ & Hx).
    inversion Heq; subst. simpl.
    apply (proj1 (Forall_forall _ _) Hcheck). apply list_elem_of_lookup. eauto. }
  destruct (tiles_split letter (zip guess check) Hps) as [Hsum Hex].
  assert (Hcount : count letter guess
                   = tally (fun p => Ascii.eqb (fst p) letter) (zip guess check)).
  { unfold count. rewrite <- (fst_zip guess check) at 1 by done.
    rewrite tally_fmap. apply tally_ext. intros [g x] _. simpl.
    destruct (Ascii.eqb_spec g letter); by case_bool_decide. }
  pose proof (tally_nonneg
    (fun p => (Ascii.eqb (snd p) "g" || Ascii.eqb (snd p) "y")
              && Ascii.eqb (fst p) letter) (zip guess check)) as Hm.
  pose proof (tally_nonneg
    (fun p => Ascii.eqb (snd p) "b" && Ascii.eqb (fst p) letter)
    (zip guess check)) as Hb.
  unfold marked, blacked. rewrite Hcount, Hex, <- Hsum.
  split; [lia|]. rewrite Z.ltb_lt. lia.
Qed.

Lemma letter_freq_partition_witness :
  exists m e,
    compute_letter_freq "e" (s "speed") (s "bbyby") = Ok (m, e) /\
    0 <= m <= count "e" (s "speed") /\
    (e = true <-> m < count "e" (s "speed")).
Proof.
  apply (letter_freq_partition "e" (s "speed") (s "bbyby")).
  - simpl. lia.
  - repeat (apply List.Forall_cons; [auto|]). apply List.Forall_nil.
Defined.
